(** * Sudoku Buster: the scan-and-solve orchestrator of [src/index.js]

    A shallow embedding of the orchestration code of [src/index.js]: the
    per-frame pipeline [processImage], the scan loop of [onVideoClick], the
    cancel handler [onCancel], the telemetry helpers
    [resetScanMetrics], [saveScanMetrics] and [logPerformanceMetrics], and
    the start-up functions [waitForOpenCVToFinishRunning] and
    [onOpenCVLoaded].

    The handlers are [async] functions over module-level variables and over
    collaborators imported from sibling modules.  They are embedded in a
    small monad: explicit state passing for the module-level variables and
    the browser state they act on, a completion that is either a normal
    value or a thrown JavaScript error, and an ordered list of the calls
    made to the outside world.  The user may click the cancel button while
    the loop is suspended in an [await]; the moments at which that can happen
    are part of the environment's input to each loop iteration.  The loop
    is embedded a second time, in [Concurrent], with any other task at its
    [await]s and with [tf.nextFrame()] free to fail. *)

From Stdlib Require Import String List ZArith Bool Arith Lia.
Import ListNotations.

Set Implicit Arguments.

Local Open Scope string_scope.
Local Open Scope list_scope.

(** ** Values shared by all modules *)

(** A thrown JavaScript error, as far as [index.js] looks at it: its
    [message] and the [isScanException] flag tested by [processImage]. *)
Record Error : Type := mkError {
  message : string;
  isScanException : bool
}.

(** The completion of a call: a value, or a thrown error. *)
Inductive Completion (A : Type) : Type :=
| Normal (a : A)
| Thrown (e : Error).

Arguments Normal {A} a.
Arguments Thrown {A} e.

(** The three display modes of [./ui]. *)
Inductive DisplayMode : Type :=
| DISPLAY_MODE_INSTRUCTIONS
| DISPLAY_MODE_VIDEO
| DISPLAY_MODE_SOLUTION.

(** An entry of the browser's performance timeline of type ['mark']. *)
Record Mark : Type := mkMark {
  name : string;
  markStartTime : Z
}.

(** One line logged by [logPerformanceMetrics] for a mark.  The source
    formats both numbers with [toFixed(2)]; the numbers themselves are
    kept here. *)
Record TransformedMark : Type := mkTransformedMark {
  tmName : string;
  sinceFirstStartTime : Z;
  sincePreviousStartTime : Z
}.

(** What [showErrorPanel] is called with: [error.message] in
    [processImage] and [onCancel], the error object itself in the two
    handlers of [onVideoClick] that pass [error]. *)
Inductive PanelArg : Type :=
| PanelMessage (m : string)
| PanelError (e : Error).

Inductive LogLevel : Type := LevelInfo | LevelError.

Inductive LogMsg : Type :=
| Text (s : string)
| MarkLine (m : TransformedMark)
| TfMemory.

(** The [await]s of the scan loop at which the browser can run another
    task, such as the click handler of the cancel button. *)
Inductive AwaitPoint : Type :=
| AwaitCaptureWebcam
| AwaitScanPuzzle
| AwaitNextFrame.

Definition AwaitPoint_eqb (p q : AwaitPoint) : bool :=
  match p, q with
  | AwaitCaptureWebcam, AwaitCaptureWebcam => true
  | AwaitScanPuzzle, AwaitScanPuzzle => true
  | AwaitNextFrame, AwaitNextFrame => true
  | _, _ => false
  end.

(** [break] or fall through to the end of the loop body. *)
Inductive Ctl : Type := Brk | Cont.

(** How a call of [onVideoClick] ended, as far as the given input goes. *)
Inductive SessionStatus : Type :=
| Bailed        (* webcam already started *)
| StartFailed   (* the webcam could not be started *)
| StillLooping  (* the loop is waiting for more frames *)
| Finished.     (* the handler ran to its last line *)

(** [array.slice(-n)]: the last [n] elements, all of them when there are
    fewer. *)
Definition slice_last {A : Type} (n : nat) (l : list A) : list A :=
  skipn (length l - n) l.

(** The [map] of [logPerformanceMetrics]: [prev] is [marks[index - 1]],
    absent at index 0. *)
Fixpoint transformMarksFrom (firstStartTime : Z) (prev : option Mark)
    (marks : list Mark) : list TransformedMark :=
  match marks with
  | [] => []
  | m :: rest =>
      {| tmName := name m;
         sinceFirstStartTime := markStartTime m - firstStartTime;
         sincePreviousStartTime :=
           match prev with
           | Some p => markStartTime m - markStartTime p
           | None => 0
           end |}
      :: transformMarksFrom firstStartTime (Some m) rest
  end%Z.

Section Orchestrator.

(** The data handed between the collaborators; [index.js] never looks
    inside them, apart from the [length] of the arrays of digit predictions
    and of solutions. *)
Context {ImageData DigitPrediction Puzzle InitialValues Solution DataURL : Type}.

(** The object returned by [processImage] on success. *)
Record ScanResult : Type := mkScanResult {
  imageDataURL : DataURL;
  solution : Solution
}.

(** The [data] object posted by [saveScanMetrics]. *)
Record ScanMetrics : Type := mkScanMetrics {
  smVersion : string;
  smTimestamp : Z;
  smOutcome : string;
  smDuration : Z;
  smFrameCount : nat;
  smMarkss : list (list Mark);
  smImageDataURL : option DataURL;
  smSolution : option Solution
}.

(** The calls that leave [index.js], in the order they are made. *)
Inductive Event : Type :=
| EvLog (level : LogLevel) (msg : LogMsg)
| EvShowErrorPanel (arg : PanelArg)
| EvHideErrorPanel
| EvSetDisplayMode (mode : DisplayMode)
| EvShowCancelButton
| EvHideCancelButton
| EvStartWebcam
| EvStopWebcam
| EvCaptureWebcam
| EvScanPuzzle (imageData : ImageData)
| EvSatisfiesAllConstraints (digitPredictions : list DigitPrediction)
| EvDigitPredictionsToPuzzle (digitPredictions : list DigitPrediction)
| EvGetInitialValues (puzzle : Puzzle)
| EvSolve (puzzle : Puzzle) (numSolutions : nat)
| EvDrawPuzzle (initialValues : InitialValues) (sol : Solution)
| EvImageDataToDataURL (imageData : ImageData)
| EvPost (data : ScanMetrics)
| EvNextFrame
| EvCancelClick.

(** The collaborators imported by [index.js] whose results it consumes.
    Each may throw.  [scanPuzzle] stands for the call with the cells model,
    the overlay element and [scanPuzzleOptions] fixed. *)
Record World : Type := mkWorld {
  version : string;
  fpsOn : bool;
  dateOffset : Z;
  startWebcamResult : Completion unit;
  scanPuzzle : ImageData -> Completion (list DigitPrediction);
  satisfiesAllConstraints : list DigitPrediction -> Completion bool;
  digitPredictionsToPuzzle : list DigitPrediction -> Completion Puzzle;
  getInitialValues : Puzzle -> Completion InitialValues;
  solve : Puzzle -> nat -> Completion (list Solution);
  drawPuzzle : InitialValues -> Solution -> Completion unit;
  imageDataToDataURL : ImageData -> Completion DataURL;
  axiosPost : ScanMetrics -> Completion unit
}.

(** What the environment supplies to one iteration of the scan loop: the
    outcome of [captureWebcam] (a frame, nothing, or an error) and the
    [await], if any, during which the user clicks the cancel button.
    These are the sessions in which the user does nothing else while the
    handler is suspended and in which [tf.nextFrame()] resolves; for a
    further click on the video or a rejected [tf.nextFrame()] see
    [Concurrent] below. *)
Record Tick : Type := mkTick {
  capture : Completion (option ImageData);
  cancelAt : option AwaitPoint
}.

(** The module-level variables of [index.js] ([startTime], [frameCount],
    [markss], [stats]) together with the state of the browser and of the
    sibling modules that the handlers read and write. *)
Record State : Type := mkState {
  webcamStarted : bool;
  displayMode : option DisplayMode;
  cancelButton : bool;
  errorPanel : option PanelArg;
  stats : bool;
  startTime : Z;
  frameCount : nat;
  markss : list (list Mark);
  marks : list Mark;
  clock : Z
}.

Definition set_webcamStarted (v : bool) (s : State) : State :=
  mkState v (displayMode s) (cancelButton s) (errorPanel s) (stats s)
          (startTime s) (frameCount s) (markss s) (marks s) (clock s).
Definition set_displayMode (v : option DisplayMode) (s : State) : State :=
  mkState (webcamStarted s) v (cancelButton s) (errorPanel s) (stats s)
          (startTime s) (frameCount s) (markss s) (marks s) (clock s).
Definition set_cancelButton (v : bool) (s : State) : State :=
  mkState (webcamStarted s) (displayMode s) v (errorPanel s) (stats s)
          (startTime s) (frameCount s) (markss s) (marks s) (clock s).
Definition set_errorPanel (v : option PanelArg) (s : State) : State :=
  mkState (webcamStarted s) (displayMode s) (cancelButton s) v (stats s)
          (startTime s) (frameCount s) (markss s) (marks s) (clock s).
Definition set_stats (v : bool) (s : State) : State :=
  mkState (webcamStarted s) (displayMode s) (cancelButton s) (errorPanel s) v
          (startTime s) (frameCount s) (markss s) (marks s) (clock s).
Definition set_startTime (v : Z) (s : State) : State :=
  mkState (webcamStarted s) (displayMode s) (cancelButton s) (errorPanel s)
          (stats s) v (frameCount s) (markss s) (marks s) (clock s).
Definition set_frameCount (v : nat) (s : State) : State :=
  mkState (webcamStarted s) (displayMode s) (cancelButton s) (errorPanel s)
          (stats s) (startTime s) v (markss s) (marks s) (clock s).
Definition set_markss (v : list (list Mark)) (s : State) : State :=
  mkState (webcamStarted s) (displayMode s) (cancelButton s) (errorPanel s)
          (stats s) (startTime s) (frameCount s) v (marks s) (clock s).
Definition set_marks (v : list Mark) (s : State) : State :=
  mkState (webcamStarted s) (displayMode s) (cancelButton s) (errorPanel s)
          (stats s) (startTime s) (frameCount s) (markss s) v (clock s).
Definition set_clock (v : Z) (s : State) : State :=
  mkState (webcamStarted s) (displayMode s) (cancelButton s) (errorPanel s)
          (stats s) (startTime s) (frameCount s) (markss s) (marks s) v.

(** ** The monad of the handlers *)

Definition Run (A : Type) : Type := (Completion A * State * list Event)%type.

Definition M (A : Type) : Type := State -> Run A.

Definition completion {A : Type} (r : Run A) : Completion A := fst (fst r).
Definition final {A : Type} (r : Run A) : State := snd (fst r).
Definition events {A : Type} (r : Run A) : list Event := snd r.

Definition ret {A : Type} (a : A) : M A := fun s => (Normal a, s, []).

Definition bind {A B : Type} (m : M A) (f : A -> M B) : M B :=
  fun s =>
    match m s with
    | (Normal a, s1, ev1) =>
        match f a s1 with
        | (r, s2, ev2) => (r, s2, ev1 ++ ev2)
        end
    | (Thrown e, s1, ev1) => (Thrown e, s1, ev1)
    end.

(** A collaborator's completion, lifted into the handler. *)
Definition lift {A : Type} (c : Completion A) : M A := fun s => (c, s, []).

Definition emit (ev : Event) : M unit := fun s => (Normal tt, s, [ev]).

Definition gets {A : Type} (f : State -> A) : M A := fun s => (Normal (f s), s, []).

Definition modify (f : State -> State) : M unit := fun s => (Normal tt, f s, []).

(** [try { m } catch (error) { h error }] *)
Definition tryCatch {A : Type} (m : M A) (h : Error -> M A) : M A :=
  fun s =>
    match m s with
    | (Normal a, s1, ev1) => (Normal a, s1, ev1)
    | (Thrown e, s1, ev1) =>
        match h e s1 with
        | (r, s2, ev2) => (r, s2, ev1 ++ ev2)
        end
    end.

(** [try { m } finally { f }]: [f] runs however [m] completed, and the
    completion of [m] stands unless [f] throws. *)
Definition tryFinally {A : Type} (m : M A) (f : M unit) : M A :=
  fun s =>
    match m s with
    | (r, s1, ev1) =>
        match f s1 with
        | (Normal _, s2, ev2) => (r, s2, ev1 ++ ev2)
        | (Thrown e, s2, ev2) => (Thrown e, s2, ev1 ++ ev2)
        end
    end.

(** [array.forEach] *)
Fixpoint forEach {A : Type} (l : list A) (f : A -> M unit) : M unit :=
  match l with
  | [] => ret tt
  | x :: rest => bind (f x) (fun _ => forEach rest f)
  end.

Notation "x <- m ;; k" := (bind m (fun x => k))
  (at level 61, m at next level, right associativity).
Notation "m ;; k" := (bind m (fun _ => k))
  (at level 61, right associativity).

(** ** Browser and sibling modules *)

Definition log_info (msg : LogMsg) : M unit := emit (EvLog LevelInfo msg).
Definition log_error (msg : LogMsg) : M unit := emit (EvLog LevelError msg).

(** [performance.now()], read off a logical clock that advances with
    every reading. *)
Definition performance_now : M Z :=
  t <- gets clock ;;
  modify (set_clock (t + 1)%Z) ;;
  ret t.

(** [performance.mark(name)] *)
Definition performance_mark (n : string) : M unit :=
  t <- performance_now ;;
  modify (fun s => set_marks (marks s ++ [mkMark n t]) s).

(** [performance.clearMarks()] *)
Definition performance_clearMarks : M unit := modify (set_marks []).

(** [performance.getEntriesByType('mark')] *)
Definition performance_getMarks : M (list Mark) := gets marks.

(** Modelled from the spec: the Frame Source of [./webcam], which is not
    part of the source at hand.  It "exposes start/stop/capture-one-frame
    over a live camera device; reports liveness": [isWebcamStarted] reports
    whether the device was started and not stopped since, [startWebcam]
    may fail with a device error. *)
Definition isWebcamStarted : M bool := gets webcamStarted.

(** Modelled from the spec: [start(renderTarget) -> fails(DeviceError)] of
    the Frame Source in [./webcam]. *)
Definition startWebcam (w : World) : M unit :=
  emit EvStartWebcam ;;
  lift (startWebcamResult w) ;;
  modify (set_webcamStarted true).

(** Modelled from the spec: [stop()] of the Frame Source in [./webcam]. *)
Definition stopWebcam : M unit :=
  emit EvStopWebcam ;;
  modify (set_webcamStarted false).

(** Modelled from the spec: [setMode(mode)] of the Display Controller in
    [./ui], which "sets the single active view". *)
Definition setDisplayMode (mode : DisplayMode) : M unit :=
  emit (EvSetDisplayMode mode) ;;
  modify (set_displayMode (Some mode)).

(** Modelled from the spec: [showCancelControl(handler)] of the Display
    Controller in [./ui]; the handler attached is always [onCancel]. *)
Definition showCancelButton : M unit :=
  emit EvShowCancelButton ;;
  modify (set_cancelButton true).

(** Modelled from the spec: [hideCancelControl()] of the Display Controller
    in [./ui], which detaches the handler. *)
Definition hideCancelButton : M unit :=
  emit EvHideCancelButton ;;
  modify (set_cancelButton false).

(** Modelled from the spec: [show(message)] of the error panel in
    [./errorPanel]. *)
Definition showErrorPanel (arg : PanelArg) : M unit :=
  emit (EvShowErrorPanel arg) ;;
  modify (set_errorPanel (Some arg)).

(** Modelled from the spec: [hide()] of the error panel in
    [./errorPanel]. *)
Definition hideErrorPanel : M unit :=
  emit EvHideErrorPanel ;;
  modify (set_errorPanel None).

(** ** [index.js] *)

Definition showStats (w : World) : M unit :=
  if fpsOn w then modify (set_stats true) else ret tt.

Definition hideStats (w : World) : M unit :=
  st <- gets stats ;;
  if fpsOn w && st then modify (set_stats false) else ret tt.

Definition resetScanMetrics : M unit :=
  t <- performance_now ;;
  modify (set_startTime t) ;;
  modify (set_frameCount 0) ;;
  modify (set_markss []).

Definition saveScanMetrics (w : World) (outcome : string)
    (url : option DataURL) (sol : option Solution) : M unit :=
  tryCatch
    (now <- performance_now ;;
     st <- gets startTime ;;
     let duration := (now - st)%Z in
     c <- gets clock ;;
     let timestamp := (dateOffset w + c)%Z in
     fc <- gets frameCount ;;
     ms <- gets markss ;;
     let data :=
       {| smVersion := version w;
          smTimestamp := timestamp;
          smOutcome := outcome;
          smDuration := duration;
          smFrameCount := fc;
          smMarkss := slice_last 100 ms;
          smImageDataURL := url;
          smSolution := sol |} in
     emit (EvPost data) ;;
     lift (axiosPost w data))
    (fun error => log_error (Text (String.append "[saveScanMetrics] " (message error)))).

Definition logPerformanceMetrics : M unit :=
  ms <- performance_getMarks ;;
  match ms with
  | [] => ret tt
  | first :: _ =>
      let firstStartTime := markStartTime first in
      let transformedMarks := transformMarksFrom firstStartTime None ms in
      forEach transformedMarks (fun mark => log_info (MarkLine mark)) ;;
      modify (fun s => set_frameCount (S (frameCount s)) s) ;;
      modify (fun s => set_markss (markss s ++ [ms]) s)
  end.

Definition onCancel (w : World) : M unit :=
  tryCatch
    (setDisplayMode DISPLAY_MODE_INSTRUCTIONS ;;
     hideCancelButton ;;
     stopWebcam ;;
     hideStats w ;;
     saveScanMetrics w "cancelled" None None)
    (fun error =>
       log_error (Text (String.append "[onCancel] " (message error))) ;;
       showErrorPanel (PanelMessage (message error))).

(** A click on the cancel button: it runs [onCancel] while the button is
    shown, and goes nowhere otherwise. *)
Definition cancelClick (w : World) : M unit :=
  shown <- gets cancelButton ;;
  if shown then emit EvCancelClick ;; onCancel w else ret tt.

(** The handler is suspended at the [await] [p] of iteration [t]; the
    cancel click arrives now if the iteration's input says so.  No other
    task runs here: [Concurrent.suspended] is the general case. *)
Definition await (w : World) (t : Tick) (p : AwaitPoint) : M unit :=
  match cancelAt t with
  | Some q => if AwaitPoint_eqb p q then cancelClick w else ret tt
  | None => ret tt
  end.

(** The [try] block of [processImage]. *)
Definition processImageBody (w : World) (t : Tick) (imageData : ImageData)
    : M (option ScanResult) :=
  emit (EvScanPuzzle imageData) ;;
  await w t AwaitScanPuzzle ;;
  digitPredictions <- lift (scanPuzzle w imageData) ;;
  performance_mark "scanPuzzle" ;;
  if (length digitPredictions <? 17)%nat then ret None else
  emit (EvSatisfiesAllConstraints digitPredictions) ;;
  ok <- lift (satisfiesAllConstraints w digitPredictions) ;;
  if negb ok then ret None else
  performance_mark "satisfiesAllConstraints" ;;
  emit (EvDigitPredictionsToPuzzle digitPredictions) ;;
  puzzle <- lift (digitPredictionsToPuzzle w digitPredictions) ;;
  emit (EvGetInitialValues puzzle) ;;
  initialValues <- lift (getInitialValues w puzzle) ;;
  emit (EvSolve puzzle 1) ;;
  solutions <- lift (solve w puzzle 1) ;;
  performance_mark "solve" ;;
  if negb (length solutions =? 1)%nat then ret None else
  match solutions with
  | [] => ret None
  | sol :: _ =>
      setDisplayMode DISPLAY_MODE_SOLUTION ;;
      emit (EvDrawPuzzle initialValues sol) ;;
      lift (drawPuzzle w initialValues sol) ;;
      performance_mark "drawPuzzle" ;;
      emit (EvImageDataToDataURL imageData) ;;
      url <- lift (imageDataToDataURL w imageData) ;;
      ret (Some (mkScanResult url sol))
  end.

Definition processImage (w : World) (t : Tick) (imageData : ImageData)
    : M (option ScanResult) :=
  tryCatch
    (processImageBody w t imageData)
    (fun error =>
       log_error (Text (String.append "[processImage] " (message error))) ;;
       (if negb (isScanException error)
        then showErrorPanel (PanelMessage (message error))
        else ret tt) ;;
       ret None).

(** The body of the [while] loop of [onVideoClick], up to and including
    its [finally] block.  [result] is the variable of that name; the
    returned pair is the way the body is left and the new value of
    [result].  [stats.begin()], [stats.end()] and the [forEach] over the
    empty array [disposables] change nothing that is modelled and are left
    out. *)
Definition loopBody (w : World) (t : Tick) (result : option ScanResult)
    : M (Ctl * option ScanResult) :=
  tryFinally
    (tryCatch
       (performance_clearMarks ;;
        emit EvCaptureWebcam ;;
        await w t AwaitCaptureWebcam ;;
        imageData <- lift (capture t) ;;
        performance_mark "captureWebcam" ;;
        match imageData with
        | None => ret (Brk, result)
        | Some img =>
            result' <- processImage w t img ;;
            match result' with
            | Some _ => ret (Brk, result')
            | None => ret (Cont, result')
            end
        end)
       (fun error =>
          log_error (Text (String.append "[onVideoClick] " (message error))) ;;
          showErrorPanel (PanelError error) ;;
          ret (Cont, result)))
    logPerformanceMetrics.

(** How the [while] loop was left: [Exited] when its condition failed or
    the body hit [break], [Waiting] when the input ran out while the loop
    was still going. *)
Inductive LoopExit : Type :=
| Exited (result : option ScanResult)
| Waiting (result : option ScanResult).

(** The two statements that close an iteration:
    [log.info('... waiting for next frame...')] and
    [await tf.nextFrame()], whose promise resolves here;
    [Concurrent.nextFrame] lets it be rejected. *)
Definition nextFrame (w : World) (t : Tick) : M unit :=
  log_info (Text "[onVideoClick] waiting for next frame...") ;;
  emit EvNextFrame ;;
  await w t AwaitNextFrame.

(** The [while (isWebcamStarted())] loop, one iteration per element of
    the environment's input. *)
Fixpoint scanLoop (w : World) (ticks : list Tick) (result : option ScanResult)
    : M LoopExit :=
  started <- isWebcamStarted ;;
  if negb started then ret (Exited result) else
  match ticks with
  | [] => ret (Waiting result)
  | t :: ticks' =>
      step <- loopBody w t result ;;
      match fst step with
      | Brk => ret (Exited (snd step))
      | Cont => nextFrame w t ;; scanLoop w ticks' (snd step)
      end
  end.

(** The statements of [onVideoClick] after the loop. *)
Definition afterLoop (w : World) (result : option ScanResult) : M unit :=
  started <- isWebcamStarted ;;
  match result with
  | Some r =>
      if started then
        tryCatch
          (hideCancelButton ;;
           stopWebcam ;;
           hideStats w ;;
           saveScanMetrics w "completed"
             (Some (imageDataURL r)) (Some (solution r)))
          (fun error =>
             log_error (Text (String.append "[onVideoClick] " (message error))) ;;
             showErrorPanel (PanelMessage (message error)))
      else ret tt
  | None => ret tt
  end ;;
  log_info TfMemory.

(** [onVideoClick] from the loop on, with [result] as it stands. *)
Definition scanAndFinish (w : World) (ticks : list Tick)
    (result : option ScanResult) : M SessionStatus :=
  exit <- scanLoop w ticks result ;;
  match exit with
  | Waiting _ => ret StillLooping
  | Exited result' => afterLoop w result' ;; ret Finished
  end.

Definition onVideoClick (w : World) (ticks : list Tick) : M SessionStatus :=
  started <- isWebcamStarted ;;
  if started then
    log_info (Text "[onVideoClick] webcam already started - bailing") ;;
    ret Bailed
  else
    ok <- tryCatch
            (hideErrorPanel ;;
             resetScanMetrics ;;
             startWebcam w ;;
             setDisplayMode DISPLAY_MODE_VIDEO ;;
             showCancelButton ;;
             showStats w ;;
             ret true)
            (fun error =>
               log_error (Text (String.append "[onVideoClick] " (message error))) ;;
               showErrorPanel (PanelError error) ;;
               ret false) ;;
    if negb ok then ret StartFailed else
    scanAndFinish w ticks None.

(** ** Reading a run *)

Definition isSolve (ev : Event) : bool :=
  match ev with EvSolve _ _ => true | _ => false end.

Definition isSatisfiesAllConstraints (ev : Event) : bool :=
  match ev with EvSatisfiesAllConstraints _ => true | _ => false end.

Definition isDrawPuzzle (ev : Event) : bool :=
  match ev with EvDrawPuzzle _ _ => true | _ => false end.

Definition isSetSolutionMode (ev : Event) : bool :=
  match ev with EvSetDisplayMode DISPLAY_MODE_SOLUTION => true | _ => false end.

Definition isShowErrorPanel (ev : Event) : bool :=
  match ev with EvShowErrorPanel _ => true | _ => false end.

Definition isCaptureWebcam (ev : Event) : bool :=
  match ev with EvCaptureWebcam => true | _ => false end.

Definition isNextFrame (ev : Event) : bool :=
  match ev with EvNextFrame => true | _ => false end.

Definition isCancelClick (ev : Event) : bool :=
  match ev with EvCancelClick => true | _ => false end.

Definition isPost (ev : Event) : bool :=
  match ev with EvPost _ => true | _ => false end.

(** The session records handed to [axios.post], oldest first. *)
Fixpoint posts (evs : list Event) : list ScanMetrics :=
  match evs with
  | [] => []
  | EvPost d :: rest => d :: posts rest
  | _ :: rest => posts rest
  end.

(** The lines logged at level [error], oldest first. *)
Fixpoint errorLog (evs : list Event) : list LogMsg :=
  match evs with
  | [] => []
  | EvLog LevelError msg :: rest => msg :: errorLog rest
  | _ :: rest => errorLog rest
  end.

(** What happened after the first click on the cancel button. *)
Fixpoint afterCancelClick (evs : list Event) : list Event :=
  match evs with
  | [] => []
  | EvCancelClick :: rest => rest
  | _ :: rest => afterCancelClick rest
  end.

(** The mark log of a posted record holds at most 100 mark sets. *)
Definition postBounded (ev : Event) : Prop :=
  match ev with
  | EvPost d => length (smMarkss d) <= 100
  | _ => True
  end.

(** The parts of a run of [await], [processImage] and
    [logPerformanceMetrics], named so that an iteration can be described
    by what each of the three left behind. *)
Definition afterAwait (w : World) (t : Tick) (p : AwaitPoint) (s : State)
    : State := final (await w t p s).

Definition duringAwait (w : World) (t : Tick) (p : AwaitPoint) (s : State)
    : list Event := events (await w t p s).

Definition afterProcess (w : World) (t : Tick) (img : ImageData) (s : State)
    : State := final (processImage w t img s).

Definition duringProcess (w : World) (t : Tick) (img : ImageData) (s : State)
    : list Event := events (processImage w t img s).

Definition processResult (w : World) (t : Tick) (img : ImageData) (s : State)
    : option ScanResult :=
  match completion (processImage w t img s) with
  | Normal result => result
  | Thrown _ => None
  end.

(** The marks [processImage] added to those of [s]. *)
Definition newMarks (w : World) (t : Tick) (img : ImageData) (s : State)
    : list Mark := skipn (length (marks s)) (marks (afterProcess w t img s)).

(** [logPerformanceMetrics] counts the frame and keeps its marks, unless
    there are none. *)
Definition afterLog (s : State) : State :=
  match marks s with
  | [] => s
  | _ :: _ =>
      set_markss (markss s ++ [marks s]) (set_frameCount (S (frameCount s)) s)
  end.

Definition duringLog (s : State) : list Event :=
  events (logPerformanceMetrics s).

(** A session in its loop, and a session whose webcam was stopped. *)
Definition looping (s : State) : Prop :=
  webcamStarted s = true /\ cancelButton s = true.

Definition stopped (s : State) : Prop :=
  webcamStarted s = false /\ cancelButton s = false.

(** How a cancelled session is left, [evs] being the calls made so far:
    stopped, one record posted, with outcome [cancelled], no frame captured
    after the click, and the instructions on display unless the display was
    switched to the solution after the click. *)
Definition cancelledOutcome (s' : State) (evs : list Event) : Prop :=
  stopped s'
  /\ (exists d, posts evs = [d] /\ smOutcome d = "cancelled")
  /\ existsb isCaptureWebcam (afterCancelClick evs) = false
  /\ (existsb isSetSolutionMode (afterCancelClick evs) = false ->
      displayMode s' = Some DISPLAY_MODE_INSTRUCTIONS).

(** Nobody clicked cancel: the session is still looping and nothing was
    posted. *)
Definition undisturbed (s' : State) (evs : list Event) : Prop :=
  looping s'
  /\ existsb isCancelClick evs = false
  /\ posts evs = [].

(** What is left of an iteration after the session was stopped: it leaves
    the session stopped, posts nothing, captures nothing, and leaves the
    display alone unless it switches to the solution. *)
Definition bystander (s s' : State) (evs : list Event) : Prop :=
  stopped s'
  /\ existsb isCancelClick evs = false
  /\ posts evs = []
  /\ existsb isCaptureWebcam evs = false
  /\ (existsb isSetSolutionMode evs = false -> displayMode s' = displayMode s).

(** What a piece of the loop does to a session, as far as cancelling
    goes. *)
Definition cancelProtocol (s s' : State) (evs : list Event) : Prop :=
  (stopped s -> bystander s s' evs)
  /\ (looping s ->
      undisturbed s' evs
      \/ (existsb isCancelClick evs = true /\ cancelledOutcome s' evs)).

(** The handler [m] keeps to [R], a relation between the state it starts
    in, the state it leaves and the calls it makes. *)
Definition respects (R : State -> State -> list Event -> Prop)
    {A : Type} (m : M A) : Prop :=
  forall s : State, R s (final (m s)) (events (m s)).

(** Started on a looping session, [m] leaves it undisturbed or
    cancelled. *)
Definition fromLooping {A : Type} (m : M A) : Prop :=
  forall s : State,
    looping s ->
    undisturbed (final (m s)) (events (m s))
    \/ (existsb isCancelClick (events (m s)) = true
        /\ cancelledOutcome (final (m s)) (events (m s))).

(** Every record posted carries a mark log of at most 100 entries. *)
Definition boundedPosts (s s' : State) (evs : list Event) : Prop :=
  Forall postBounded evs.

(** The loop goes round again after iteration [t]: it closes the
    iteration with [nextFrame] and returns to its condition with the
    remaining input and [result'] in [result]. *)
Definition loopsOn (w : World) (t : Tick) (result : option ScanResult)
    (s : State) (result' : option ScanResult) : Prop :=
  forall ticks : list Tick,
    scanLoop w (t :: ticks) result s
    = (loopBody w t result ;; nextFrame w t ;; scanLoop w ticks result') s.


End Orchestrator.


(** ** A concrete world

    Frames are numbered.  The recognizer of this world reads fixed digit
    predictions off each frame number; validation and puzzle building
    follow the spec's description of [./puzzle]; the solver knows one
    completed grid and returns it for every puzzle that agrees with
    it. *)
Module Demo.

Local Open Scope nat_scope.

(** Modelled from the spec: an element of DigitPredictions as produced by
    [scanPuzzle] of [./scan], "a recognized digit 1-9 with a confidence
    score" for one of the 81 cells, here with the cell's position 0..80 in
    row-major order and the confidence in percent. *)
Record Prediction : Type := mkPrediction {
  cell : nat;
  digit : nat;
  confidence : nat
}.

Definition Grid : Type := list nat.

Definition rowOf (i : nat) : nat := i / 9.
Definition colOf (i : nat) : nat := i mod 9.
Definition boxOf (i : nat) : nat := 3 * (i / 27) + (i mod 9) / 3.

Definition conflict (a b : Prediction) : bool :=
  (digit a =? digit b)
  && ((rowOf (cell a) =? rowOf (cell b))
      || (colOf (cell a) =? colOf (cell b))
      || (boxOf (cell a) =? boxOf (cell b))).

(** Modelled from the spec: [satisfiesAllConstraints] of [./puzzle], "the
    Sudoku rule check - no repeated digit in any row, column, or 3x3
    box". *)
Fixpoint satisfiesAllConstraints (digitPredictions : list Prediction) : bool :=
  match digitPredictions with
  | [] => true
  | a :: rest =>
      forallb (fun b => negb (conflict a b)) rest
      && satisfiesAllConstraints rest
  end.

(** Modelled from the spec: [digitPredictionsToPuzzle] of [./puzzle], the
    grid of the given clues; 0 stands for an empty cell. *)
Definition digitPredictionsToPuzzle (digitPredictions : list Prediction) : Grid :=
  map (fun i =>
         match find (fun p => cell p =? i) digitPredictions with
         | Some p => digit p
         | None => 0
         end)
      (seq 0 81).

(** Modelled from the spec: [getInitialValues] of [./solve], the clues of
    a puzzle as pairs of cell and digit. *)
Definition getInitialValues (puzzle : Grid) : list (nat * nat) :=
  filter (fun cd => negb (snd cd =? 0)) (combine (seq 0 81) puzzle).

(** The completed grid known to the solver of this world. *)
Definition referenceGrid : Grid :=
  map (fun i => (3 * (rowOf i mod 3) + rowOf i / 3 + colOf i) mod 9 + 1)
      (seq 0 81).

Definition agrees (puzzle full : Grid) : bool :=
  forallb (fun ab => (fst ab =? 0) || (fst ab =? snd ab)) (combine puzzle full).

Definition solve (puzzle : Grid) (numSolutions : nat) : list Grid :=
  firstn numSolutions
         (if agrees puzzle referenceGrid then [referenceGrid] else []).

(** [n] clues read off [grid], at cells spread over the board. *)
Definition cluesOf (grid : Grid) (n : nat) : list Prediction :=
  map (fun k => let i := (k * 8) mod 81 in mkPrediction i (nth i grid 0) 99)
      (seq 0 n).

(** The reference grid with every digit replaced by its successor. *)
Definition shiftedGrid : Grid := map (fun d => d mod 9 + 1) referenceGrid.

Definition noPuzzle : Error := mkError "no puzzle found" true.
Definition modelFailure : Error := mkError "model is not loaded" false.

Definition scanPuzzle (frame : nat) : Completion (list Prediction) :=
  match frame with
  | 1 => Normal (cluesOf referenceGrid 16)
  | 2 => Normal (cluesOf referenceGrid 30)
  | 3 => Normal (mkPrediction 1 (nth 0 referenceGrid 0) 60
                   :: cluesOf referenceGrid 17)
  | 4 => Thrown modelFailure
  | 5 => Normal (cluesOf shiftedGrid 20)
  | _ => Thrown noPuzzle
  end.

Definition world : @World nat Prediction Grid (list (nat * nat)) Grid string :=
  mkWorld
    "1.0.0"                                          (* version *)
    false                                            (* fpsOn *)
    1600000000000%Z                                  (* dateOffset *)
    (Normal tt)                                      (* startWebcam *)
    scanPuzzle
    (fun dps => Normal (satisfiesAllConstraints dps))
    (fun dps => Normal (digitPredictionsToPuzzle dps))
    (fun puzzle => Normal (getInitialValues puzzle))
    (fun puzzle n => Normal (solve puzzle n))
    (fun _ _ => Normal tt)                           (* drawPuzzle *)
    (fun _ => Normal "data:image/png;base64,iVBORw0KGgo=")
    (fun _ => Normal tt).                            (* axios.post *)

(** The page before the first click: instructions shown, nothing
    started. *)
Definition idle : State :=
  {| webcamStarted := false;
     displayMode := Some DISPLAY_MODE_INSTRUCTIONS;
     cancelButton := false;
     errorPanel := None;
     stats := false;
     startTime := 0%Z;
     frameCount := 0;
     markss := [];
     marks := [];
     clock := 0%Z |}.

(** A session in its loop: webcam started, video shown, cancel button
    shown. *)
Definition inLoop : State :=
  {| webcamStarted := true;
     displayMode := Some DISPLAY_MODE_VIDEO;
     cancelButton := true;
     errorPanel := None;
     stats := false;
     startTime := 0%Z;
     frameCount := 0;
     markss := [];
     marks := [];
     clock := 1%Z |}.

(** Frame [n] is captured and the user leaves the cancel button alone. *)
Definition frame (n : nat) : @Tick nat := mkTick (Normal (Some n)) None.

(** Frame [n] is captured and the user clicks cancel during [p]. *)
Definition frameCancelled (n : nat) (p : AwaitPoint) : @Tick nat :=
  mkTick (Normal (Some n)) (Some p).


End Demo.

(** ** What a session draws, marks and counts *)

Section Rest.

Context {ImageData DigitPrediction Puzzle InitialValues Solution DataURL : Type}.

(** What was handed to [UI.drawPuzzle], oldest first. *)
Fixpoint drawn
    (evs : list (@Event ImageData DigitPrediction Puzzle InitialValues
                   Solution DataURL))
    : list (InitialValues * Solution) :=
  match evs with
  | [] => []
  | EvDrawPuzzle initialValues sol :: rest => (initialValues, sol) :: drawn rest
  | _ :: rest => drawn rest
  end.


(** The mark log of a posted record has as many entries as frames were
    counted, up to 100. *)
Definition postConsistent
    (ev : @Event ImageData DigitPrediction Puzzle InitialValues Solution DataURL)
    : Prop :=
  match ev with
  | EvPost d => length (smMarkss d) = Nat.min 100 (smFrameCount d)
  | _ => True
  end.

(** [frameCount] counts the entries of [markss]; a step that finds it so
    leaves it so and posts only records that say the same. *)
Definition countedFrames (s s' : State)
    (evs : list (@Event ImageData DigitPrediction Puzzle InitialValues
                   Solution DataURL))
    : Prop :=
  frameCount s = length (markss s) ->
  frameCount s' = length (markss s') /\ Forall postConsistent evs.

(** The solution [sol], drawn over [initialValues], is the one solution
    the solver returned for the puzzle read off a frame scanned in
    [evs]. *)
Definition passedTheGates
    (w : @World ImageData DigitPrediction Puzzle InitialValues Solution DataURL)
    (evs : list (@Event ImageData DigitPrediction Puzzle InitialValues
                   Solution DataURL))
    (initialValues : InitialValues) (sol : Solution) : Prop :=
  exists img dps puzzle,
    In (EvScanPuzzle img) evs
    /\ scanPuzzle w img = Normal dps
    /\ 17 <= length dps
    /\ satisfiesAllConstraints w dps = Normal true
    /\ digitPredictionsToPuzzle w dps = Normal puzzle
    /\ getInitialValues w puzzle = Normal initialValues
    /\ solve w puzzle 1 = Normal [sol].

(** Whatever a step draws passed the gates. *)
Definition checkedDraws
    (w : @World ImageData DigitPrediction Puzzle InitialValues Solution DataURL)
    (s s' : State)
    (evs : list (@Event ImageData DigitPrediction Puzzle InitialValues
                   Solution DataURL))
    : Prop :=
  forall initialValues sol,
    In (initialValues, sol) (drawn evs) ->
    passedTheGates w evs initialValues sol.

(** How a completed session is left: stopped, the solution on display,
    one record posted, with outcome [completed], the snapshot and a
    solution that was drawn. *)
Definition completedOutcome (s' : State)
    (evs : list (@Event ImageData DigitPrediction Puzzle InitialValues
                   Solution DataURL))
    : Prop :=
  stopped s'
  /\ displayMode s' = Some DISPLAY_MODE_SOLUTION
  /\ exists d url sol initialValues,
      posts evs = [d]
      /\ smOutcome d = "completed"
      /\ smImageDataURL d = Some url
      /\ smSolution d = Some sol
      /\ In (initialValues, sol) (drawn evs).

End Rest.

(** ** Other tasks at the awaits

    While [onVideoClick] is suspended in an [await] the browser runs other
    tasks: the handler of the cancel button, but also a further call of
    [onVideoClick] when the user clicks the video again, and the promise
    awaited may be rejected.  [Tick] above stands for the sessions in which
    the only such task is a click on the cancel button and in which
    [tf.nextFrame()] resolves.  Here the loop is embedded a second time,
    with all of this left to the environment: each iteration is given the
    tasks that run at its three [await]s and the way the promise of
    [tf.nextFrame()] settles.  A task is any handler; it acts on the same
    module-level variables and sibling modules, and what it returns or
    throws stays with its own promise.  [cancelOnly] gives back the
    sessions of [Tick].

    The code between two [await]s runs without interruption.  Nothing is
    run here during [await startWebcam(...)] and during the
    [await saveScanMetrics(...)] after the loop.  No click on the cancel
    button can arrive at either, the button being hidden; what a click on
    the video does during the first depends on the moment at which
    [./webcam] turns [isWebcamStarted], and during the second it starts a
    session of which the call, about to return, reads nothing. *)
Module Concurrent.

Section Handlers.

Context {ImageData DigitPrediction Puzzle InitialValues Solution DataURL : Type}.

Local Abbreviation World' :=
  (@World ImageData DigitPrediction Puzzle InitialValues Solution DataURL).
Local Abbreviation M' :=
  (@M ImageData DigitPrediction Puzzle InitialValues Solution DataURL).
Local Abbreviation Result' := (option (@ScanResult Solution DataURL)).
Local Notation "x <- m ;; k" := (bind m (fun x => k))
  (at level 61, m at next level, right associativity).
Local Notation "m ;; k" := (bind m (fun _ => k))
  (at level 61, right associativity).

(** What the environment supplies to one iteration of the scan loop: the
    outcome of [captureWebcam], the tasks the browser runs while the
    iteration is suspended in each of its [await]s, and the outcome of
    [tf.nextFrame()]. *)
Record Turn : Type := mkTurn {
  captured : Completion (option ImageData);
  meanwhile : AwaitPoint -> M' unit;
  nextFrameResult : Completion unit
}.

(** A handler run as a task of its own: its effects are there, its
    completion is not ours. *)
Definition otherTask {A : Type} (task : M' A) : M' unit :=
  fun s => (Normal tt, final (task s), events (task s)).

(** The handler is suspended at the [await] [p] of iteration [turn]. *)
Definition suspended (turn : Turn) (p : AwaitPoint) : M' unit :=
  otherTask (meanwhile turn p).

(** The iteration of [t]: the user does nothing but click cancel, at the
    [await] that [t] names, and [tf.nextFrame()] resolves. *)
Definition cancelOnly (w : World') (t : @Tick ImageData) : Turn :=
  mkTurn (capture t) (await w t) (Normal tt).

(** The [try] block of [processImage]. *)
Definition processImageBody (w : World') (turn : Turn) (imageData : ImageData)
    : M' Result' :=
  emit (EvScanPuzzle imageData) ;;
  suspended turn AwaitScanPuzzle ;;
  digitPredictions <- lift (scanPuzzle w imageData) ;;
  performance_mark "scanPuzzle" ;;
  if (length digitPredictions <? 17)%nat then ret None else
  emit (EvSatisfiesAllConstraints digitPredictions) ;;
  ok <- lift (satisfiesAllConstraints w digitPredictions) ;;
  if negb ok then ret None else
  performance_mark "satisfiesAllConstraints" ;;
  emit (EvDigitPredictionsToPuzzle digitPredictions) ;;
  puzzle <- lift (digitPredictionsToPuzzle w digitPredictions) ;;
  emit (EvGetInitialValues puzzle) ;;
  initialValues <- lift (getInitialValues w puzzle) ;;
  emit (EvSolve puzzle 1) ;;
  solutions <- lift (solve w puzzle 1) ;;
  performance_mark "solve" ;;
  if negb (length solutions =? 1)%nat then ret None else
  match solutions with
  | [] => ret None
  | sol :: _ =>
      setDisplayMode DISPLAY_MODE_SOLUTION ;;
      emit (EvDrawPuzzle initialValues sol) ;;
      lift (drawPuzzle w initialValues sol) ;;
      performance_mark "drawPuzzle" ;;
      emit (EvImageDataToDataURL imageData) ;;
      url <- lift (imageDataToDataURL w imageData) ;;
      ret (Some (mkScanResult url sol))
  end.

Definition processImage (w : World') (turn : Turn) (imageData : ImageData)
    : M' Result' :=
  tryCatch
    (processImageBody w turn imageData)
    (fun error =>
       log_error (Text (String.append "[processImage] " (message error))) ;;
       (if negb (isScanException error)
        then showErrorPanel (PanelMessage (message error))
        else ret tt) ;;
       ret None).

(** The body of the [while] loop of [onVideoClick], up to and including
    its [finally] block. *)
Definition loopBody (w : World') (turn : Turn) (result : Result')
    : M' (Ctl * Result') :=
  tryFinally
    (tryCatch
       (performance_clearMarks ;;
        emit EvCaptureWebcam ;;
        suspended turn AwaitCaptureWebcam ;;
        imageData <- lift (captured turn) ;;
        performance_mark "captureWebcam" ;;
        match imageData with
        | None => ret (Brk, result)
        | Some img =>
            result' <- processImage w turn img ;;
            match result' with
            | Some _ => ret (Brk, result')
            | None => ret (Cont, result')
            end
        end)
       (fun error =>
          log_error (Text (String.append "[onVideoClick] " (message error))) ;;
          showErrorPanel (PanelError error) ;;
          ret (Cont, result)))
    logPerformanceMetrics.

(** The two statements that close an iteration, outside every [try]:
    [log.info('... waiting for next frame...')] and
    [await tf.nextFrame()]. *)
Definition nextFrame (turn : Turn) : M' unit :=
  log_info (Text "[onVideoClick] waiting for next frame...") ;;
  emit EvNextFrame ;;
  suspended turn AwaitNextFrame ;;
  lift (nextFrameResult turn).

(** The [while (isWebcamStarted())] loop, one iteration per element of
    the environment's input. *)
Fixpoint scanLoop (w : World') (turns : list Turn) (result : Result')
    : M' LoopExit :=
  started <- isWebcamStarted ;;
  if negb started then ret (Exited result) else
  match turns with
  | [] => ret (Waiting result)
  | turn :: turns' =>
      step <- loopBody w turn result ;;
      match fst step with
      | Brk => ret (Exited (snd step))
      | Cont => nextFrame turn ;; scanLoop w turns' (snd step)
      end
  end.

(** [onVideoClick] from the loop on, with [result] as it stands. *)
Definition scanAndFinish (w : World') (turns : list Turn) (result : Result')
    : M' SessionStatus :=
  exit <- scanLoop w turns result ;;
  match exit with
  | Waiting _ => ret StillLooping
  | Exited result' => afterLoop w result' ;; ret Finished
  end.

Definition onVideoClick (w : World') (turns : list Turn) : M' SessionStatus :=
  started <- isWebcamStarted ;;
  if started then
    log_info (Text "[onVideoClick] webcam already started - bailing") ;;
    ret Bailed
  else
    ok <- tryCatch
            (hideErrorPanel ;;
             resetScanMetrics ;;
             startWebcam w ;;
             setDisplayMode DISPLAY_MODE_VIDEO ;;
             showCancelButton ;;
             showStats w ;;
             ret true)
            (fun error =>
               log_error (Text (String.append "[onVideoClick] " (message error))) ;;
               showErrorPanel (PanelError error) ;;
               ret false) ;;
    if negb ok then ret StartFailed else
    scanAndFinish w turns None.

(** The user clicks the video: a further call of [onVideoClick], which
    gets as far as [turns] take it. *)
Definition videoClick (w : World') (turns : list Turn) : M' unit :=
  otherTask (onVideoClick w turns).

(** The error [e] is one that [tf.nextFrame()] was rejected with. *)
Definition fromNextFrame (turns : list Turn) (e : Error) : Prop :=
  exists turn, In turn turns /\ nextFrameResult turn = Thrown e.

(** The handler [m] throws nothing but errors in [P]. *)
Definition throwsOnly (P : Error -> Prop) {A : Type} (m : M' A) : Prop :=
  forall s : State,
    match completion (m s) with
    | Normal _ => True
    | Thrown e => P e
    end.


End Handlers.

End Concurrent.

(** ** Start-up: [waitForOpenCVToFinishRunning] and [onOpenCVLoaded]

    The two functions run once, before any session, and touch none of the
    module-level variables; they are embedded on their own.  The
    environment supplies the completion of [loadModels] and, for each turn
    of the polling loop, whether [cv && cv.Mat] holds. *)
Module Startup.

Inductive Event : Type :=
| EvLoadModels
| EvLogInfo (msg : LogMsg)
| EvTimeout (milliseconds : nat)
| EvHideSplashContent
| EvShowMainContent
| EvSetDisplayMode (mode : DisplayMode).

(** How far a function got on the input given: it returned, it threw, or
    it is still polling. *)
Inductive Progress : Type :=
| Returned
| Threw (e : Error)
| Polling.

(** [for (;;) { if (cv && cv.Mat) { ...; return } ...; await timeout }],
    one turn per element of [ready]. *)
Fixpoint waitForOpenCVToFinishRunning (ready : list bool)
    : list Event * Progress :=
  match ready with
  | [] => ([], Polling)
  | true :: _ =>
      ([EvLogInfo (Text "[waitForOpenCVToFinishRunning] done")], Returned)
  | false :: later =>
      let (evs, progress) := waitForOpenCVToFinishRunning later in
      (EvLogInfo (Text "[waitForOpenCVToFinishRunning] waiting...")
         :: EvTimeout 2 :: evs,
       progress)
  end.

(** [onOpenCVLoaded]; nothing in it catches what [loadModels] throws. *)
Definition onOpenCVLoaded (loadModels : Completion unit) (ready : list bool)
    : list Event * Progress :=
  match loadModels with
  | Thrown e => ([EvLoadModels], Threw e)
  | Normal _ =>
      match waitForOpenCVToFinishRunning ready with
      | (evs, Returned) =>
          (EvLoadModels :: EvLogInfo TfMemory :: evs
             ++ [EvHideSplashContent; EvShowMainContent;
                 EvSetDisplayMode DISPLAY_MODE_INSTRUCTIONS],
           Returned)
      | (evs, progress) =>
          (EvLoadModels :: EvLogInfo TfMemory :: evs, progress)
      end
  end.

(** What a turn of [waitForOpenCVToFinishRunning] does when it finds
    OpenCV not ready. *)
Definition waitingTurn : list Event :=
  [EvLogInfo (Text "[waitForOpenCVToFinishRunning] waiting...");
   EvTimeout 2].

End Startup.

(** ** Worlds in which something fails *)
Module Faults.

Definition noCamera : Error := mkError "Permission denied" false.

(** The world of [Demo], but the webcam cannot be started. *)
Definition withoutCamera
    : @World nat Demo.Prediction Demo.Grid (list (nat * nat)) Demo.Grid string :=
  mkWorld (version Demo.world) (fpsOn Demo.world) (dateOffset Demo.world)
          (Thrown noCamera)
          (scanPuzzle Demo.world) (satisfiesAllConstraints Demo.world)
          (digitPredictionsToPuzzle Demo.world) (getInitialValues Demo.world)
          (solve Demo.world) (drawPuzzle Demo.world)
          (imageDataToDataURL Demo.world) (axiosPost Demo.world).

(** [captureWebcam] returns nothing. *)
Definition noFrame : @Tick nat := mkTick (Normal None) None.

End Faults.

(** ** A second click on the video, a lost frame *)
Module Races.

Local Abbreviation Turn' :=
  (@Concurrent.Turn nat Demo.Prediction Demo.Grid (list (nat * nat))
     Demo.Grid string).

(** Frame [n] is captured, the user does nothing and [tf.nextFrame()]
    resolves. *)
Definition quiet (n : nat) : Turn' :=
  Concurrent.mkTurn (Normal (Some n)) (fun _ => ret tt) (Normal tt).

(** The user clicks cancel and then the video.  The new call of
    [onVideoClick] finds the webcam stopped and starts it; the promise of
    [startWebcam] settles before the task that was interrupted is resumed,
    so that the new call reaches its loop. *)
Definition restart
    : @M nat Demo.Prediction Demo.Grid (list (nat * nat)) Demo.Grid string unit :=
  bind (cancelClick Demo.world)
       (fun _ => Concurrent.videoClick Demo.world []).

(** Frame [n] is captured; while it is scanned the user clicks cancel and
    then the video. *)
Definition restarted (n : nat) : Turn' :=
  Concurrent.mkTurn
    (Normal (Some n))
    (fun p => match p with AwaitScanPuzzle => restart | _ => ret tt end)
    (Normal tt).

Definition contextLost : Error := mkError "WebGL context lost" false.

(** Frame [n] is captured, and [tf.nextFrame()] is rejected. *)
Definition frameLost (n : nat) : Turn' :=
  Concurrent.mkTurn (Normal (Some n)) (fun _ => ret tt) (Thrown contextLost).

End Races.

(** * Properties of the orchestrator *)

(** Case analysis on the innermost result the goal is waiting for: a
    collaborator's completion, a test on the state, the user's timing. *)
Ltac split_match :=
  match goal with
  | |- context [match ?x with _ => _ end] =>
      lazymatch x with
      | context [match _ with _ => _ end] => fail
      | _ => destruct x eqn:?
      end
  end.

Ltac unfold_monad :=
  cbv [tryFinally tryCatch bind lift emit gets modify ret
       completion final events
       performance_clearMarks performance_mark performance_now
       performance_getMarks isWebcamStarted startWebcam stopWebcam
       setDisplayMode showCancelButton hideCancelButton
       showErrorPanel hideErrorPanel log_error log_info].

Ltac reduce_once :=
  cbn -[Nat.ltb Z.add Z.sub slice_last String.append
        afterAwait duringAwait afterProcess duringProcess processResult
        newMarks afterLog duringLog scanLoop
        await processImage logPerformanceMetrics].

Unset Implicit Arguments.

Section Properties.

Context {ImageData DigitPrediction Puzzle InitialValues Solution DataURL : Type}.

Local Abbreviation World' :=
  (@World ImageData DigitPrediction Puzzle InitialValues Solution DataURL).
Local Abbreviation Tick' := (@Tick ImageData).
Local Abbreviation Event' :=
  (@Event ImageData DigitPrediction Puzzle InitialValues Solution DataURL).
Local Abbreviation Result' := (option (@ScanResult Solution DataURL)).
Local Abbreviation M' :=
  (@M ImageData DigitPrediction Puzzle InitialValues Solution DataURL).

Implicit Types (w : World') (s : State) (t : Tick') (r : Result')
         (e : Error) (img : ImageData) (dps : list DigitPrediction)
         (puzzle : Puzzle) (ticks : list Tick') (evs : list Event')
         (p : AwaitPoint).

(** ** Reading runs *)

Lemma posts_app evs evs' : posts (evs ++ evs') = posts evs ++ posts evs'.
Proof.
  induction evs as [|ev evs IH]; [reflexivity|].
  destruct ev; cbn [app posts]; rewrite IH; reflexivity.
Qed.

Lemma afterCancelClick_later evs evs' :
  existsb isCancelClick evs = false ->
  afterCancelClick (evs ++ evs') = afterCancelClick evs'.
Proof.
  induction evs as [|ev evs IH]; [reflexivity|].
  destruct ev; cbn [app afterCancelClick existsb isCancelClick orb];
    auto; discriminate.
Qed.

Lemma afterCancelClick_earlier evs evs' :
  existsb isCancelClick evs = true ->
  afterCancelClick (evs ++ evs') = afterCancelClick evs ++ evs'.
Proof.
  induction evs as [|ev evs IH]; [discriminate|].
  destruct ev; cbn [app afterCancelClick existsb isCancelClick orb]; auto.
Qed.

Lemma In_cancelClick evs :
  In EvCancelClick evs <-> existsb isCancelClick evs = true.
Proof.
  rewrite existsb_exists. split.
  - intros Hin. exists EvCancelClick. split; [assumption|reflexivity].
  - intros [ev [Hin Hev]]. destruct ev; try discriminate. assumption.
Qed.

(** The lines [logPerformanceMetrics] writes are lines and nothing
    else. *)
Lemma existsb_mark_lines (P : Event' -> bool) (l : list TransformedMark) :
  (forall m, P (EvLog LevelInfo (MarkLine m)) = false) ->
  existsb P (map (fun m => EvLog LevelInfo (MarkLine m)) l) = false.
Proof.
  intros HP. induction l as [|m l IH]; [reflexivity|].
  cbn [map existsb]. rewrite HP, IH. reflexivity.
Qed.

Lemma posts_mark_lines (l : list TransformedMark) :
  posts (map (fun m => EvLog LevelInfo (MarkLine m) : Event') l) = [].
Proof. induction l as [|m l IH]; [reflexivity|exact IH]. Qed.

Lemma slice_last_length {A : Type} (n : nat) (l : list A) :
  length (slice_last n l) <= n.
Proof. unfold slice_last. rewrite length_skipn. lia. Qed.

(** ** [await] and [onCancel] *)

Lemma await_run w t p s :
  await w t p s = (Normal tt, afterAwait w t p s, duringAwait w t p s).
Proof.
  unfold afterAwait, duringAwait, await, cancelClick, onCancel,
         saveScanMetrics, hideStats.
  unfold_monad.
  repeat (split_match; cbn);
    repeat match goal with u : unit |- _ => destruct u end; reflexivity.
Qed.

Ltac await_fact :=
  intros;
  unfold afterAwait, duringAwait, await, cancelClick, onCancel,
         saveScanMetrics, hideStats;
  unfold_monad;
  repeat (split_match; cbn -[Z.add Z.sub slice_last String.append]);
  try reflexivity; try congruence.

Lemma errorPanel_afterAwait w t p s :
  errorPanel (afterAwait w t p s) = errorPanel s.
Proof. await_fact. Qed.
Lemma frameCount_afterAwait w t p s :
  frameCount (afterAwait w t p s) = frameCount s.
Proof. await_fact. Qed.
Lemma markss_afterAwait w t p s : markss (afterAwait w t p s) = markss s.
Proof. await_fact. Qed.
Lemma marks_afterAwait w t p s : marks (afterAwait w t p s) = marks s.
Proof. await_fact. Qed.

Lemma isSolve_duringAwait w t p s :
  existsb isSolve (duringAwait w t p s) = false.
Proof. await_fact. Qed.
Lemma isSatisfiesAllConstraints_duringAwait w t p s :
  existsb isSatisfiesAllConstraints (duringAwait w t p s) = false.
Proof. await_fact. Qed.
Lemma isDrawPuzzle_duringAwait w t p s :
  existsb isDrawPuzzle (duringAwait w t p s) = false.
Proof. await_fact. Qed.
Lemma isSetSolutionMode_duringAwait w t p s :
  existsb isSetSolutionMode (duringAwait w t p s) = false.
Proof. await_fact. Qed.
Lemma isShowErrorPanel_duringAwait w t p s :
  existsb isShowErrorPanel (duringAwait w t p s) = false.
Proof. await_fact. Qed.
Lemma isCaptureWebcam_duringAwait w t p s :
  existsb isCaptureWebcam (duringAwait w t p s) = false.
Proof. await_fact. Qed.
Lemma isNextFrame_duringAwait w t p s :
  existsb isNextFrame (duringAwait w t p s) = false.
Proof. await_fact. Qed.


(** No click, no change. *)
Lemma await_undisturbed w t p s :
  cancelAt t <> Some p ->
  afterAwait w t p s = s /\ duringAwait w t p s = [].
Proof.
  intros Hquiet. unfold afterAwait, duringAwait, await.
  destruct (cancelAt t) as [q|]; [|split; reflexivity].
  destruct p, q; try (split; reflexivity); congruence.
Qed.

(** [await] keeps to the cancel protocol. *)
Lemma await_cancelProtocol w t p : respects cancelProtocol (await w t p).
Proof.
  intros s.
  unfold cancelProtocol, bystander, undisturbed, cancelledOutcome,
         stopped, looping.
  split.
  - intros [Hwebcam Hbutton]. revert Hwebcam Hbutton. await_fact.
    all: intros; repeat split; congruence.
  - intros [Hwebcam Hbutton]. revert Hwebcam Hbutton. await_fact.
    all: intros;
      first [ left; repeat split; congruence
            | right; repeat split; try reflexivity; try congruence;
              eexists; split; reflexivity ].
Qed.

(** ** [logPerformanceMetrics] *)

Lemma forEach_log_run (l : list TransformedMark) s :
  forEach (ImageData := ImageData) (DigitPrediction := DigitPrediction)
          (Puzzle := Puzzle) (InitialValues := InitialValues)
          (Solution := Solution) (DataURL := DataURL)
          l (fun mark => log_info (MarkLine mark)) s
  = (Normal tt, s, map (fun mark => EvLog LevelInfo (MarkLine mark)) l).
Proof.
  induction l as [|m l IH]; [reflexivity|].
  cbn [forEach map]. unfold bind at 1. unfold log_info at 1, emit.
  rewrite IH. reflexivity.
Qed.

Lemma logPerformanceMetrics_run s :
  logPerformanceMetrics (ImageData := ImageData)
    (DigitPrediction := DigitPrediction) (Puzzle := Puzzle)
    (InitialValues := InitialValues) (Solution := Solution)
    (DataURL := DataURL) s
  = (Normal tt, afterLog s, duringLog s).
Proof.
  unfold afterLog, duringLog, logPerformanceMetrics, performance_getMarks.
  cbv [events bind gets modify].
  destruct (marks s) as [|m l]; [reflexivity|].
  rewrite !forEach_log_run. cbn [snd app]. rewrite app_nil_r. reflexivity.
Qed.

Lemma duringLog_lines s :
  duringLog s
  = map (fun m => EvLog LevelInfo (MarkLine m) : Event')
        (match marks s with
         | [] => []
         | first :: _ => transformMarksFrom (markStartTime first) None (marks s)
         end).
Proof.
  unfold duringLog, logPerformanceMetrics, performance_getMarks.
  cbv [events bind gets modify].
  destruct (marks s) as [|m l]; [reflexivity|].
  rewrite !forEach_log_run. cbn [snd app]. rewrite app_nil_r. reflexivity.
Qed.

Ltac log_fact :=
  intros; first
    [ rewrite duringLog_lines;
      first [ now apply existsb_mark_lines | apply posts_mark_lines ]
    | unfold afterLog;
      match goal with
      | |- context [marks ?s] =>
          destruct (marks s) eqn:?; cbn; congruence
      end ].

Lemma webcamStarted_afterLog s : webcamStarted (afterLog s) = webcamStarted s.
Proof. log_fact. Qed.
Lemma cancelButton_afterLog s : cancelButton (afterLog s) = cancelButton s.
Proof. log_fact. Qed.
Lemma displayMode_afterLog s : displayMode (afterLog s) = displayMode s.
Proof. log_fact. Qed.
Lemma errorPanel_afterLog s : errorPanel (afterLog s) = errorPanel s.
Proof. log_fact. Qed.
Lemma marks_afterLog s : marks (afterLog s) = marks s.
Proof. log_fact. Qed.
Lemma frameCount_afterLog s :
  frameCount (afterLog s)
  = match marks s with [] => frameCount s | _ :: _ => S (frameCount s) end.
Proof. log_fact. Qed.
Lemma markss_afterLog s :
  markss (afterLog s)
  = match marks s with [] => markss s | _ :: _ => markss s ++ [marks s] end.
Proof. log_fact. Qed.

Lemma isSolve_duringLog s :
  existsb isSolve (duringLog s : list Event') = false.
Proof. log_fact. Qed.
Lemma isSatisfiesAllConstraints_duringLog s :
  existsb isSatisfiesAllConstraints (duringLog s : list Event') = false.
Proof. log_fact. Qed.
Lemma isDrawPuzzle_duringLog s :
  existsb isDrawPuzzle (duringLog s : list Event') = false.
Proof. log_fact. Qed.
Lemma isSetSolutionMode_duringLog s :
  existsb isSetSolutionMode (duringLog s : list Event') = false.
Proof. log_fact. Qed.
Lemma isShowErrorPanel_duringLog s :
  existsb isShowErrorPanel (duringLog s : list Event') = false.
Proof. log_fact. Qed.
Lemma isCaptureWebcam_duringLog s :
  existsb isCaptureWebcam (duringLog s : list Event') = false.
Proof. log_fact. Qed.
Lemma isNextFrame_duringLog s :
  existsb isNextFrame (duringLog s : list Event') = false.
Proof. log_fact. Qed.
Lemma isCancelClick_duringLog s :
  existsb isCancelClick (duringLog s : list Event') = false.
Proof. log_fact. Qed.
Lemma posts_duringLog s : posts (duringLog s : list Event') = [].
Proof. log_fact. Qed.

Create Rewrite HintDb frame.

#[local] Hint Rewrite
  errorPanel_afterAwait frameCount_afterAwait markss_afterAwait
  marks_afterAwait isSolve_duringAwait
  isSatisfiesAllConstraints_duringAwait isDrawPuzzle_duringAwait
  isSetSolutionMode_duringAwait isShowErrorPanel_duringAwait
  isCaptureWebcam_duringAwait isNextFrame_duringAwait
  webcamStarted_afterLog cancelButton_afterLog displayMode_afterLog
  errorPanel_afterLog marks_afterLog frameCount_afterLog markss_afterLog
  isSolve_duringLog isSatisfiesAllConstraints_duringLog
  isDrawPuzzle_duringLog isSetSolutionMode_duringLog
  isShowErrorPanel_duringLog isCaptureWebcam_duringLog
  isNextFrame_duringLog isCancelClick_duringLog posts_duringLog
  : frame.

(** ** Running [processImage] symbolically *)

Ltac reduce :=
  reduce_once; repeat (progress autorewrite with frame; reduce_once).

(** One step: use what is known about the result the goal is waiting
    for, or else split on it. *)
Ltac run_step :=
  first
    [ match goal with
      | H : ?x = _ |- context [match ?x with _ => _ end] => rewrite H
      | H : ?x = _ |- context [negb ?x] => rewrite H
      end
    | split_match ];
  reduce_once.

Ltac run := rewrite ?await_run; reduce_once; repeat run_step.

Ltac finish :=
  repeat split;
  repeat (progress (rewrite ?existsb_app, ?posts_app; reduce));
  try reflexivity; try congruence.

Ltac unfold_processImage :=
  unfold newMarks, processResult, afterProcess, duringProcess,
         processImage, processImageBody;
  unfold_monad.

Lemma processImage_run w t img s :
  processImage w t img s
  = (Normal (processResult w t img s),
     afterProcess w t img s, duringProcess w t img s).
Proof. unfold_processImage. run; reflexivity. Qed.

Lemma frameCount_afterProcess w t img s :
  frameCount (afterProcess w t img s) = frameCount s.
Proof. unfold_processImage. run; reduce; reflexivity. Qed.

Lemma markss_afterProcess w t img s :
  markss (afterProcess w t img s) = markss s.
Proof. unfold_processImage. run; reduce; reflexivity. Qed.

Lemma marks_afterProcess w t img s :
  marks (afterProcess w t img s) = marks s ++ newMarks w t img s.
Proof.
  unfold_processImage.
  run; reduce;
    rewrite <- ?app_assoc, ?skipn_app, ?skipn_all, ?Nat.sub_diag,
      ?app_nil_r; reflexivity.
Qed.

Lemma isNextFrame_duringProcess w t img s :
  existsb isNextFrame (duringProcess w t img s) = false.
Proof. unfold_processImage. run; finish. Qed.

Lemma isCaptureWebcam_duringProcess w t img s :
  existsb isCaptureWebcam (duringProcess w t img s) = false.
Proof. unfold_processImage. run; finish. Qed.

#[local] Hint Rewrite
  frameCount_afterProcess markss_afterProcess marks_afterProcess
  isNextFrame_duringProcess isCaptureWebcam_duringProcess : frame.

(** ** The gates of [processImage] *)

Lemma processImage_too_few_digits w t img s dps :
  scanPuzzle w img = Normal dps ->
  (length dps <? 17)%nat = true ->
  processResult w t img s = None
  /\ existsb isSolve (duringProcess w t img s) = false
  /\ existsb isSatisfiesAllConstraints (duringProcess w t img s) = false
  /\ existsb isDrawPuzzle (duringProcess w t img s) = false
  /\ errorPanel (afterProcess w t img s) = errorPanel s.
Proof. intros Hscan Hlen. unfold_processImage. run; finish. Qed.

Lemma processImage_enough_digits w t img s dps :
  scanPuzzle w img = Normal dps ->
  (length dps <? 17)%nat = false ->
  existsb isSatisfiesAllConstraints (duringProcess w t img s) = true.
Proof. intros Hscan Hlen. unfold_processImage. run; finish. Qed.

Lemma processImage_rejected w t img s dps :
  scanPuzzle w img = Normal dps ->
  satisfiesAllConstraints w dps = Normal false ->
  processResult w t img s = None
  /\ existsb isSolve (duringProcess w t img s) = false
  /\ existsb isDrawPuzzle (duringProcess w t img s) = false
  /\ errorPanel (afterProcess w t img s) = errorPanel s.
Proof. intros Hscan Hvalid. unfold_processImage. run; finish. Qed.

Lemma processImage_not_unique w t img s dps puzzle solutions :
  scanPuzzle w img = Normal dps ->
  digitPredictionsToPuzzle w dps = Normal puzzle ->
  solve w puzzle 1 = Normal solutions ->
  (length solutions =? 1)%nat = false ->
  processResult w t img s = None
  /\ existsb isDrawPuzzle (duringProcess w t img s) = false
  /\ existsb isSetSolutionMode (duringProcess w t img s) = false.
Proof. intros Hscan Hpuzzle Hsolve Hcount. unfold_processImage. run; finish. Qed.

(** ** One iteration of the loop *)

(** Into the body of the loop, as far as the outcome [Hcapture] of
    [captureWebcam] allows. *)
Ltac enter_loopBody Hcapture :=
  unfold loopBody; unfold_monad;
  rewrite await_run; reduce;
  rewrite Hcapture; reduce;
  rewrite ?processImage_run; reduce.

Ltac leave_loopBody :=
  rewrite ?logPerformanceMetrics_run; reduce; finish.

(** An iteration that ends without [break] is followed by [nextFrame] and
    the loop's condition. *)
Lemma scanLoop_round w t ticks r r' s :
  webcamStarted s = true ->
  completion (loopBody w t r s) = Normal (Cont, r') ->
  scanLoop w (t :: ticks) r s
  = bind (loopBody w t r)
         (fun _ => bind (nextFrame w t) (fun _ => scanLoop w ticks r')) s.
Proof.
  intros Hstarted Hcont.
  cbn [scanLoop]. unfold bind, isWebcamStarted, gets.
  rewrite Hstarted. cbn [negb].
  destruct (loopBody w t r s) as [[c s1] ev1].
  unfold completion in Hcont. cbn [fst] in Hcont. subst c.
  cbn [fst snd app].
  destruct (nextFrame w t s1) as [[[[]|e2] s2] ev2]; [|reflexivity].
  destruct (scanLoop w ticks r' s2) as [[c3 s3] ev3]. reflexivity.
Qed.

Lemma loopsOn_intro w t r r' s :
  webcamStarted s = true ->
  completion (loopBody w t r s) = Normal (Cont, r') ->
  loopsOn w t r s r'.
Proof.
  intros Hstarted Hcont ticks. now apply scanLoop_round.
Qed.

(** C2: a frame with fewer than 17 recognized digits is abandoned: the
    iteration ends without [break] and without a result, neither the
    validator nor the solver was called, nothing was drawn, and the loop
    goes round again. *)
Theorem minimum_clue_gate w t r s img dps :
  webcamStarted s = true ->
  capture t = Normal (Some img) ->
  scanPuzzle w img = Normal dps ->
  length dps < 17 ->
  let run := loopBody w t r s in
  completion run = Normal (Cont, None)
  /\ existsb isSolve (events run) = false
  /\ existsb isSatisfiesAllConstraints (events run) = false
  /\ existsb isDrawPuzzle (events run) = false
  /\ errorPanel (final run) = errorPanel s
  /\ loopsOn w t r s None.
Proof.
  intros Hstarted Hcapture Hscan Hlen run.
  apply Nat.ltb_lt in Hlen.
  assert (Hrun : completion run = Normal (Cont, None)
                 /\ existsb isSolve (events run) = false
                 /\ existsb isSatisfiesAllConstraints (events run) = false
                 /\ existsb isDrawPuzzle (events run) = false
                 /\ errorPanel (final run) = errorPanel s).
  { subst run. enter_loopBody Hcapture.
    match goal with
    | |- context [afterProcess w t img ?s0] =>
        destruct (processImage_too_few_digits w t img s0 dps Hscan Hlen)
          as (Hresult & Hsolver & Hvalidator & Hdraw & Hpanel)
    end.
    rewrite Hresult. leave_loopBody.
    all: rewrite ?Hsolver, ?Hvalidator, ?Hdraw, ?Hpanel; reduce; reflexivity. }
  destruct Hrun as (Hcont & Hsolver & Hvalidator & Hdraw & Hpanel).
  repeat split; try assumption. now apply loopsOn_intro.
Qed.

(** The threshold is exactly 17: with 17 digits or more the frame goes on
    to the validator. *)
Lemma clue_threshold_is_17 w t r s img dps :
  capture t = Normal (Some img) ->
  scanPuzzle w img = Normal dps ->
  17 <= length dps ->
  existsb isSatisfiesAllConstraints (events (loopBody w t r s)) = true.
Proof.
  intros Hcapture Hscan Hlen.
  apply Nat.ltb_ge in Hlen.
  enter_loopBody Hcapture.
  match goal with
  | |- context [afterProcess w t img ?s0] =>
      pose proof (processImage_enough_digits w t img s0 dps Hscan Hlen)
        as Hvalidator
  end.
  destruct (processResult w t img _); leave_loopBody.
  all: rewrite Hvalidator; reduce; reflexivity.
Qed.

(** C3: a frame whose digits the validator rejects is abandoned: the
    iteration ends without [break] and without a result, the solver was
    not called, nothing was drawn or shown as an error, and the loop goes
    round again. *)
Theorem constraint_gate w t r s img dps :
  webcamStarted s = true ->
  capture t = Normal (Some img) ->
  scanPuzzle w img = Normal dps ->
  satisfiesAllConstraints w dps = Normal false ->
  let run := loopBody w t r s in
  completion run = Normal (Cont, None)
  /\ existsb isSolve (events run) = false
  /\ existsb isDrawPuzzle (events run) = false
  /\ errorPanel (final run) = errorPanel s
  /\ loopsOn w t r s None.
Proof.
  intros Hstarted Hcapture Hscan Hvalid run.
  assert (Hrun : completion run = Normal (Cont, None)
                 /\ existsb isSolve (events run) = false
                 /\ existsb isDrawPuzzle (events run) = false
                 /\ errorPanel (final run) = errorPanel s).
  { subst run. enter_loopBody Hcapture.
    match goal with
    | |- context [afterProcess w t img ?s0] =>
        destruct (processImage_rejected w t img s0 dps Hscan Hvalid)
          as (Hresult & Hsolver & Hdraw & Hpanel)
    end.
    rewrite Hresult. leave_loopBody.
    all: rewrite ?Hsolver, ?Hdraw, ?Hpanel; reduce; reflexivity. }
  destruct Hrun as (Hcont & Hsolver & Hdraw & Hpanel).
  repeat split; try assumption. now apply loopsOn_intro.
Qed.

(** C4: when the solver returns a number of solutions other than one for
    the frame's puzzle, the iteration ends without [break] and without a
    result, nothing is drawn, the display is not switched to the solution,
    and the loop goes round again. *)
Theorem uniqueness_gate w t r s img dps puzzle solutions :
  webcamStarted s = true ->
  capture t = Normal (Some img) ->
  scanPuzzle w img = Normal dps ->
  digitPredictionsToPuzzle w dps = Normal puzzle ->
  solve w puzzle 1 = Normal solutions ->
  length solutions <> 1 ->
  let run := loopBody w t r s in
  completion run = Normal (Cont, None)
  /\ existsb isDrawPuzzle (events run) = false
  /\ existsb isSetSolutionMode (events run) = false
  /\ loopsOn w t r s None.
Proof.
  intros Hstarted Hcapture Hscan Hpuzzle Hsolve Hcount run.
  apply Nat.eqb_neq in Hcount.
  assert (Hrun : completion run = Normal (Cont, None)
                 /\ existsb isDrawPuzzle (events run) = false
                 /\ existsb isSetSolutionMode (events run) = false).
  { subst run. enter_loopBody Hcapture.
    match goal with
    | |- context [afterProcess w t img ?s0] =>
        destruct (processImage_not_unique w t img s0 dps puzzle solutions
                    Hscan Hpuzzle Hsolve Hcount)
          as (Hresult & Hdraw & Hmode)
    end.
    rewrite Hresult. leave_loopBody.
    all: rewrite ?Hdraw, ?Hmode; reduce; reflexivity. }
  destruct Hrun as (Hcont & Hdraw & Hmode).
  repeat split; try assumption. now apply loopsOn_intro.
Qed.

(** ** Starting *)


(** ** The mark log *)


(** When [captureWebcam] throws there is no mark, and
    [logPerformanceMetrics] returns at its first test. *)
Lemma marks_skipped_when_capture_throws w t r s e :
  capture t = Thrown e ->
  let run := loopBody w t r s in
  frameCount (final run) = frameCount s
  /\ markss (final run) = markss s
  /\ marks (final run) = []
  /\ completion run = Normal (Cont, r).
Proof.
  intros Hcapture run. subst run.
  enter_loopBody Hcapture. leave_loopBody.
Qed.

(** ** Errors *)


(** Without a click during the scan, [processImage] neither posts nor
    stops anything. *)
Lemma processImage_undisturbed w t img s :
  cancelAt t <> Some AwaitScanPuzzle ->
  posts (duringProcess w t img s) = []
  /\ webcamStarted (afterProcess w t img s) = webcamStarted s
  /\ cancelButton (afterProcess w t img s) = cancelButton s
  /\ existsb isCancelClick (duringProcess w t img s) = false.
Proof.
  intros Hquiet. unfold_processImage. rewrite await_run.
  destruct (await_undisturbed w t AwaitScanPuzzle s Hquiet) as [-> ->].
  run; finish.
Qed.

Ltac thrown :=
  let Hthrown := fresh "Hthrown" in
  intros Hthrown; try discriminate Hthrown;
  injection Hthrown as ->;
  repeat match goal with
         | H : negb _ = true |- _ => apply negb_true_iff in H
         | H : negb _ = false |- _ => apply negb_false_iff in H
         end;
  try congruence.

Ltac find_event :=
  repeat (rewrite ?in_app_iff; cbn [In]); auto 12.

Lemma processImage_scan_exception w t img s s0 e :
  completion (processImageBody w t img s0) = Thrown e ->
  isScanException e = true ->
  processResult w t img s = None
  /\ existsb isShowErrorPanel (duringProcess w t img s) = false
  /\ errorPanel (afterProcess w t img s) = errorPanel s
  /\ In (EvLog LevelError (Text (String.append "[processImage] " (message e))))
        (duringProcess w t img s).
Proof.
  intros Hthrown Hexpected. revert Hthrown.
  unfold_processImage. run; thrown; finish; find_event.
Qed.



(** C5, as the code has it: an error of [processImage]'s [try] block that
    carries [isScanException] is kept from the user, the iteration ends
    without [break] and the loop goes round again; the error is logged at
    level error all the same. *)
Theorem scan_exception_swallowed w t r s s0 img e :
  webcamStarted s = true ->
  capture t = Normal (Some img) ->
  completion (processImageBody w t img s0) = Thrown e ->
  isScanException e = true ->
  let run := loopBody w t r s in
  completion run = Normal (Cont, None)
  /\ existsb isShowErrorPanel (events run) = false
  /\ errorPanel (final run) = errorPanel s
  /\ In (EvLog LevelError (Text (String.append "[processImage] " (message e))))
        (events run)
  /\ loopsOn w t r s None.
Proof.
  intros Hstarted Hcapture Hthrown Hexpected run.
  assert (Hrun : completion run = Normal (Cont, None)
                 /\ existsb isShowErrorPanel (events run) = false
                 /\ errorPanel (final run) = errorPanel s
                 /\ In (EvLog LevelError
                          (Text (String.append "[processImage] " (message e))))
                       (events run)).
  { subst run. enter_loopBody Hcapture.
    match goal with
    | |- context [afterProcess w t img ?s1] =>
        destruct (processImage_scan_exception w t img s1 s0 e Hthrown Hexpected)
          as (Hresult & Hpanel & Hsame & Hlogged)
    end.
    rewrite Hresult. leave_loopBody.
    all: rewrite ?Hpanel, ?Hsame; reduce; try reflexivity.
    find_event. }
  destruct Hrun as (Hcont & Hpanel & Hsame & Hlogged).
  repeat split; try assumption. now apply loopsOn_intro.
Qed.


(** ** Success *)

Lemma processImage_solved w t img s dps puzzle initialValues sol url :
  scanPuzzle w img = Normal dps ->
  (length dps <? 17)%nat = false ->
  satisfiesAllConstraints w dps = Normal true ->
  digitPredictionsToPuzzle w dps = Normal puzzle ->
  getInitialValues w puzzle = Normal initialValues ->
  solve w puzzle 1 = Normal [sol] ->
  drawPuzzle w initialValues sol = Normal tt ->
  imageDataToDataURL w img = Normal url ->
  processResult w t img s = Some (mkScanResult url sol)
  /\ displayMode (afterProcess w t img s) = Some DISPLAY_MODE_SOLUTION
  /\ In (EvDrawPuzzle initialValues sol) (duringProcess w t img s).
Proof.
  intros Hscan Hlen Hvalid Hpuzzle Hinitial Hsolve Hdraw Hurl.
  unfold_processImage. run; finish; find_event.
Qed.

(** C9, as the code has it: a frame that passes both gates and for which
    the solver returns exactly one solution, drawn and snapshot without an
    error, ends the session as completed, provided the user has not
    clicked cancel while the frame was being captured or scanned: the
    display shows the solution, the cancel button is hidden, the webcam is
    stopped, and the one record posted has outcome [completed] and carries
    the snapshot and the solution. *)
Theorem unique_solution_completes
    w t ticks r s img dps puzzle initialValues sol url :
  webcamStarted s = true ->
  capture t = Normal (Some img) ->
  scanPuzzle w img = Normal dps ->
  17 <= length dps ->
  satisfiesAllConstraints w dps = Normal true ->
  digitPredictionsToPuzzle w dps = Normal puzzle ->
  getInitialValues w puzzle = Normal initialValues ->
  solve w puzzle 1 = Normal [sol] ->
  drawPuzzle w initialValues sol = Normal tt ->
  imageDataToDataURL w img = Normal url ->
  cancelAt t <> Some AwaitCaptureWebcam ->
  cancelAt t <> Some AwaitScanPuzzle ->
  let run := scanAndFinish w (t :: ticks) r s in
  completion run = Normal Finished
  /\ displayMode (final run) = Some DISPLAY_MODE_SOLUTION
  /\ In (EvDrawPuzzle initialValues sol) (events run)
  /\ (exists d, posts (events run) = [d]
                /\ smOutcome d = "completed"
                /\ smImageDataURL d = Some url
                /\ smSolution d = Some sol)
  /\ webcamStarted (final run) = false
  /\ cancelButton (final run) = false.
Proof.
  intros Hstarted Hcapture Hscan Hlen Hvalid Hpuzzle Hinitial Hsolve Hdraw
         Hurl Hcapturing Hscanning run.
  apply Nat.ltb_ge in Hlen. subst run.
  unfold scanAndFinish, afterLoop, saveScanMetrics, hideStats.
  cbn [scanLoop]. unfold loopBody. unfold_monad.
  rewrite Hstarted. reduce.
  rewrite await_run.
  destruct (await_undisturbed w t AwaitCaptureWebcam (set_marks [] s) Hcapturing)
    as [-> ->].
  reduce. rewrite Hcapture. reduce. rewrite processImage_run.
  match goal with
  | |- context [afterProcess w t img ?s1] =>
      destruct (processImage_solved w t img s1 dps puzzle initialValues sol url
                  Hscan Hlen Hvalid Hpuzzle Hinitial Hsolve Hdraw Hurl)
        as (Hresult & Hmode & Hdrawn);
      destruct (processImage_undisturbed w t img s1 Hscanning)
        as (Hposts & Hwebcam & Hbutton & _)
  end.
  rewrite Hresult. reduce. rewrite logPerformanceMetrics_run. reduce.
  rewrite Hwebcam. reduce. rewrite Hstarted. reduce.
  repeat run_step.
  all: finish; rewrite ?Hposts, ?Hmode; reduce; try reflexivity.
  all: try (eexists; repeat split; reflexivity).
  all: find_event.
Qed.

(** ** Relations kept by every step *)

Section Respects.

Variable R : State -> State -> list Event' -> Prop.
Hypothesis R_nil : forall s, R s s [].
Hypothesis R_app :
  forall s s1 s2 ev1 ev2, R s s1 ev1 -> R s1 s2 ev2 -> R s s2 (ev1 ++ ev2).

Lemma respects_ret {A : Type} (a : A) : respects R (ret a).
Proof. intros s. apply R_nil. Qed.

Lemma respects_lift {A : Type} (c : Completion A) : respects R (lift c).
Proof. intros s. apply R_nil. Qed.

Lemma respects_gets {A : Type} (f : State -> A) : respects R (gets f).
Proof. intros s. apply R_nil. Qed.

Lemma respects_bind {A B : Type} (m : M A) (f : A -> M B) :
  respects R m -> (forall a, respects R (f a)) -> respects R (bind m f).
Proof.
  intros Hm Hf s. specialize (Hm s). unfold bind, final, events in *.
  destruct (m s) as [[[a|e] s1] ev1]; cbn [fst snd] in *; [|exact Hm].
  specialize (Hf a s1). unfold final, events in Hf.
  destruct (f a s1) as [[c s2] ev2]. cbn [fst snd] in *.
  now apply R_app with s1.
Qed.

Lemma respects_tryCatch {A : Type} (m : M A) (h : Error -> M A) :
  respects R m -> (forall e, respects R (h e)) -> respects R (tryCatch m h).
Proof.
  intros Hm Hh s. specialize (Hm s). unfold tryCatch, final, events in *.
  destruct (m s) as [[[a|e] s1] ev1]; cbn [fst snd] in *; [exact Hm|].
  specialize (Hh e s1). unfold final, events in Hh.
  destruct (h e s1) as [[c s2] ev2]. cbn [fst snd] in *.
  now apply R_app with s1.
Qed.

Lemma respects_tryFinally {A : Type} (m : M A) (f : M unit) :
  respects R m -> respects R f -> respects R (tryFinally m f).
Proof.
  intros Hm Hf s. specialize (Hm s). unfold tryFinally, final, events in *.
  destruct (m s) as [[c s1] ev1]. cbn [fst snd] in *.
  specialize (Hf s1). unfold final, events in Hf.
  destruct (f s1) as [[[u|e] s2] ev2]; cbn [fst snd] in *;
    now apply R_app with s1.
Qed.

Lemma respects_forEach {A : Type} (l : list A) (f : A -> M unit) :
  (forall x, respects R (f x)) -> respects R (forEach l f).
Proof.
  intros Hf. induction l as [|x l IH]; cbn [forEach].
  - apply respects_ret.
  - apply respects_bind; [apply Hf | intros _; exact IH].
Qed.

End Respects.

(** Break a handler into its steps, down to [emit], [modify] and the
    handlers named in [leaf]. *)
Ltac structural Rnil Rapp leaf :=
  repeat first
    [ progress cbv zeta
    | leaf
    | apply (respects_ret _ Rnil)
    | apply (respects_lift _ Rnil)
    | apply (respects_gets _ Rnil)
    | apply (respects_bind _ Rapp); [|intros ?]
    | apply (respects_tryCatch _ Rapp); [|intros ?]
    | apply (respects_tryFinally _ Rapp)
    | apply (respects_forEach _ Rnil Rapp); intros ?
    | match goal with
      | |- respects _ (match ?x with _ => _ end) => destruct x
      end ].

(** ** The mark log that is posted *)

Lemma boundedPosts_nil s : boundedPosts s s ([] : list Event').
Proof. constructor. Qed.

Lemma boundedPosts_app s s1 s2 evs evs' :
  boundedPosts s s1 evs -> boundedPosts s1 s2 evs' ->
  boundedPosts s s2 (evs ++ evs').
Proof. unfold boundedPosts. intros H1 H2. apply Forall_app. now split. Qed.

Lemma boundedPosts_modify (f : State -> State) :
  respects boundedPosts
    (modify f : M' unit).
Proof. intros s. constructor. Qed.

Lemma boundedPosts_emit (ev : Event') :
  postBounded ev -> respects boundedPosts (emit ev).
Proof. intros Hev s. repeat constructor. exact Hev. Qed.

Ltac bounded_leaf :=
  first
    [ apply boundedPosts_modify
    | apply boundedPosts_emit; cbn [postBounded smMarkss];
      first [exact I | apply slice_last_length] ].

Ltac bounded :=
  unfold afterLoop, nextFrame, loopBody, processImage, processImageBody,
         await, cancelClick, onCancel, saveScanMetrics, hideStats, showStats,
         resetScanMetrics, logPerformanceMetrics,
         performance_clearMarks, performance_mark, performance_now,
         performance_getMarks, isWebcamStarted, startWebcam, stopWebcam,
         setDisplayMode, showCancelButton, hideCancelButton,
         showErrorPanel, hideErrorPanel, log_error, log_info;
  structural boundedPosts_nil boundedPosts_app bounded_leaf.

Lemma saveScanMetrics_bounded w outcome url sol :
  respects boundedPosts (saveScanMetrics w outcome url sol).
Proof. bounded. Qed.

Lemma loopBody_bounded w t r : respects boundedPosts (loopBody w t r).
Proof. bounded. Qed.

Lemma nextFrame_bounded w t : respects boundedPosts (nextFrame w t).
Proof. bounded. Qed.

Lemma afterLoop_bounded w r : respects boundedPosts (afterLoop w r).
Proof. bounded. Qed.

Lemma scanLoop_bounded w ticks :
  forall r, respects boundedPosts (scanLoop w ticks r).
Proof.
  induction ticks as [|t ticks IH]; intros r; cbn [scanLoop].
  - bounded.
  - apply (respects_bind _ boundedPosts_app); [bounded|]. intros started.
    destruct (negb started); [bounded|].
    apply (respects_bind _ boundedPosts_app); [apply loopBody_bounded|].
    intros step. destruct (fst step); [bounded|].
    apply (respects_bind _ boundedPosts_app); [apply nextFrame_bounded|].
    intros _. apply IH.
Qed.

Lemma onVideoClick_bounded w ticks :
  respects boundedPosts (onVideoClick w ticks).
Proof.
  unfold onVideoClick, scanAndFinish.
  apply (respects_bind _ boundedPosts_app); [bounded|]. intros started.
  destruct started; [bounded|].
  apply (respects_bind _ boundedPosts_app); [bounded|]. intros ok.
  destruct (negb ok); [bounded|].
  apply (respects_bind _ boundedPosts_app); [apply scanLoop_bounded|].
  intros [result|result]; [|bounded].
  apply (respects_bind _ boundedPosts_app); [apply afterLoop_bounded|].
  intros _. bounded.
Qed.

(** C6, as the code has it: the mark log that [saveScanMetrics] posts is
    the last 100 entries of [markss], the whole of it when it has fewer;
    hence every record posted in the course of [onVideoClick], by the
    handler itself or by [onCancel], carries at most 100 mark sets,
    however long the session. *)
Theorem posted_mark_log_bounded w ticks outcome url sol s :
  (exists d,
      posts (events (saveScanMetrics w outcome url sol s)) = [d]
      /\ smOutcome d = outcome
      /\ smMarkss d = slice_last 100 (markss s)
      /\ length (smMarkss d) = Nat.min 100 (length (markss s)))
  /\ Forall postBounded (events (onVideoClick w ticks s)).
Proof.
  split; [|apply onVideoClick_bounded].
  unfold saveScanMetrics. unfold_monad.
  destruct (axiosPost w _); cbn -[Nat.min slice_last Z.add Z.sub];
    (eexists; split; [reflexivity|]; split; [reflexivity|];
     split; [reflexivity|];
     cbn [smMarkss]; unfold slice_last; rewrite length_skipn; lia).
Qed.

(** ** Cancelling *)

Lemma looping_not_stopped s : looping s -> stopped s -> False.
Proof. intros [Hon _] [Hoff _]. congruence. Qed.

Lemma cancelProtocol_nil s : cancelProtocol s s ([] : list Event').
Proof.
  split.
  - intros Hstopped. repeat split; try apply Hstopped; reflexivity.
  - intros Hlooping. left. repeat split; try apply Hlooping; reflexivity.
Qed.

(** A cancelled session stays cancelled through what is left of the
    iteration. *)
Lemma cancelledOutcome_then_bystander s1 s2 evs evs' :
  existsb isCancelClick evs = true ->
  cancelledOutcome s1 evs ->
  bystander s1 s2 evs' ->
  cancelledOutcome s2 (evs ++ evs').
Proof.
  intros Hclick (_ & (d & Hposts & Hd) & Hcapture & Hmode)
         (Hstopped & _ & Hposts' & Hcapture' & Hmode').
  unfold cancelledOutcome.
  rewrite (afterCancelClick_earlier _ _ Hclick).
  split; [exact Hstopped|]. split; [|split].
  - exists d. rewrite posts_app, Hposts, Hposts'. split; [reflexivity|exact Hd].
  - rewrite existsb_app, Hcapture, Hcapture'. reflexivity.
  - rewrite existsb_app. intros Hnone.
    apply orb_false_iff in Hnone as [Hbefore Hafter].
    rewrite (Hmode' Hafter). exact (Hmode Hbefore).
Qed.

(** What happened before the click does not count. *)
Lemma undisturbed_then_cancelledOutcome s1 s2 evs evs' :
  undisturbed s1 evs ->
  cancelledOutcome s2 evs' ->
  cancelledOutcome s2 (evs ++ evs').
Proof.
  intros (_ & Hclick & Hposts) (Hstopped & (d & Hposts' & Hd) & Hcapture & Hmode).
  unfold cancelledOutcome.
  rewrite (afterCancelClick_later _ _ Hclick).
  split; [exact Hstopped|]. split; [|split; assumption].
  exists d. rewrite posts_app, Hposts, Hposts'. split; [reflexivity|exact Hd].
Qed.

Lemma cancelProtocol_app s s1 s2 evs evs' :
  cancelProtocol s s1 evs -> cancelProtocol s1 s2 evs' ->
  cancelProtocol s s2 (evs ++ evs').
Proof.
  intros [Hstopped1 Hlooping1] [Hstopped2 Hlooping2]. split.
  - intros Hstopped.
    destruct (Hstopped1 Hstopped) as (Hs1 & Hclick & Hposts & Hcapture & Hmode).
    destruct (Hstopped2 Hs1) as (Hs2 & Hclick' & Hposts' & Hcapture' & Hmode').
    unfold bystander. split; [exact Hs2|].
    rewrite !existsb_app, posts_app, Hclick, Hclick', Hposts, Hposts',
      Hcapture, Hcapture'.
    repeat split. intros Hnone.
    apply orb_false_iff in Hnone as [Hbefore Hafter].
    rewrite (Hmode' Hafter). exact (Hmode Hbefore).
  - intros Hlooping.
    destruct (Hlooping1 Hlooping) as [Hquiet | [Hclick Hcancelled]].
    + destruct (Hlooping2 (proj1 Hquiet)) as [Hquiet' | [Hclick' Hcancelled']].
      * left. destruct Hquiet as (_ & Hclick & Hposts).
        destruct Hquiet' as (Hl2 & Hclick' & Hposts').
        unfold undisturbed. split; [exact Hl2|].
        rewrite existsb_app, posts_app, Hclick, Hclick', Hposts, Hposts'.
        split; reflexivity.
      * right. split.
        -- rewrite existsb_app, Hclick'. apply orb_true_r.
        -- now apply undisturbed_then_cancelledOutcome with s1.
    + right. split.
      * rewrite existsb_app, Hclick. reflexivity.
      * apply cancelledOutcome_then_bystander with s1; try assumption.
        apply Hstopped2, Hcancelled.
Qed.

(** A step that makes none of the calls the protocol is about, and a
    step that leaves alone the state the protocol is about. *)
Lemma cancelProtocol_emit (ev : Event') :
  isCancelClick ev = false -> isPost ev = false ->
  isCaptureWebcam ev = false -> isSetSolutionMode ev = false ->
  respects cancelProtocol (emit ev).
Proof.
  intros Hclick Hpost Hcapture Hmode s.
  assert (Hposts : posts [ev] = []) by (destruct ev; try reflexivity; discriminate).
  unfold emit, final, events. cbn [fst snd]. split.
  - intros Hstopped. unfold bystander. split; [exact Hstopped|].
    cbn [existsb]. rewrite Hclick, Hcapture, Hposts. repeat split.
  - intros Hlooping. left. unfold undisturbed. split; [exact Hlooping|].
    cbn [existsb]. rewrite Hclick, Hposts. split; reflexivity.
Qed.

Lemma cancelProtocol_modify (f : State -> State) :
  (forall s, webcamStarted (f s) = webcamStarted s) ->
  (forall s, cancelButton (f s) = cancelButton s) ->
  (forall s, displayMode (f s) = displayMode s) ->
  respects cancelProtocol
    (modify f : M' unit).
Proof.
  intros Hwebcam Hbutton Hmode s.
  unfold modify, final, events, stopped, looping. cbn [fst snd]. split.
  - intros [Hoff Hhidden]. unfold bystander, stopped.
    rewrite Hwebcam, Hbutton, Hmode. repeat split; assumption.
  - intros [Hon Hshown]. left. unfold undisturbed, looping.
    rewrite Hwebcam, Hbutton. repeat split; assumption.
Qed.

(** [processImage] switches the display to the solution by
    [setDisplayMode], which says so. *)
Lemma cancelProtocol_setSolutionMode :
  respects cancelProtocol
    (setDisplayMode DISPLAY_MODE_SOLUTION : M' unit).
Proof.
  intros s. unfold setDisplayMode. unfold_monad. cbn. split.
  - intros Hstopped. split; [exact Hstopped|]. repeat split. discriminate.
  - intros Hlooping. left. split; [exact Hlooping|]. split; reflexivity.
Qed.

Ltac protocol_leaf :=
  first
    [ apply await_cancelProtocol
    | apply cancelProtocol_setSolutionMode
    | apply cancelProtocol_emit; reflexivity
    | apply cancelProtocol_modify; intros ?; reflexivity ].

Ltac protocol :=
  unfold nextFrame, processImage, processImageBody, logPerformanceMetrics,
         performance_clearMarks, performance_mark, performance_now,
         performance_getMarks, showErrorPanel, log_error, log_info;
  structural cancelProtocol_nil cancelProtocol_app protocol_leaf.

Lemma processImage_cancelProtocol w t img :
  respects cancelProtocol (processImage w t img).
Proof. protocol. Qed.

Lemma logPerformanceMetrics_cancelProtocol :
  respects cancelProtocol
    (logPerformanceMetrics : M' unit).
Proof. protocol. Qed.

Lemma nextFrame_cancelProtocol w t : respects cancelProtocol (nextFrame w t).
Proof. protocol. Qed.

Lemma cancelProtocol_of_looping s s' evs :
  looping s ->
  undisturbed s' evs
  \/ (existsb isCancelClick evs = true /\ cancelledOutcome s' evs) ->
  cancelProtocol s s' evs.
Proof.
  intros Hlooping Hrun. split; [|intros _; exact Hrun].
  intros Hstopped. destruct (looping_not_stopped s Hlooping Hstopped).
Qed.

Lemma fromLooping_of_respects {A : Type} (m : M' A) :
  respects cancelProtocol m -> fromLooping m.
Proof. intros Hm s Hlooping. exact (proj2 (Hm s) Hlooping). Qed.

Lemma fromLooping_after {A B : Type} (m : M' A) (f : A -> M' B) :
  (forall s, looping s -> undisturbed (final (m s)) (events (m s))) ->
  (forall a, fromLooping (f a)) ->
  fromLooping (bind m f).
Proof.
  intros Hm Hf s Hlooping. specialize (Hm s Hlooping).
  unfold bind, final, events in *.
  destruct (m s) as [[[a|e] s1] ev1]; cbn [fst snd] in *; [|left; exact Hm].
  specialize (Hf a s1 (proj1 Hm)). unfold final, events in Hf.
  destruct (f a s1) as [[c s2] ev2]. cbn [fst snd] in *.
  refine (proj2 (cancelProtocol_app s s1 s2 ev1 ev2 _ _) Hlooping).
  - apply cancelProtocol_of_looping; [exact Hlooping|left; exact Hm].
  - apply cancelProtocol_of_looping; [exact (proj1 Hm)|exact Hf].
Qed.

Lemma fromLooping_tryCatch {A : Type} (m : M' A) (h : Error -> M' A) :
  fromLooping m -> (forall e, respects cancelProtocol (h e)) ->
  fromLooping (tryCatch m h).
Proof.
  intros Hm Hh s Hlooping. specialize (Hm s Hlooping).
  unfold tryCatch, final, events in *.
  destruct (m s) as [[[a|e] s1] ev1]; cbn [fst snd] in *; [exact Hm|].
  specialize (Hh e s1). unfold final, events in Hh.
  destruct (h e s1) as [[c s2] ev2]. cbn [fst snd] in *.
  refine (proj2 (cancelProtocol_app s s1 s2 ev1 ev2 _ Hh) Hlooping).
  now apply cancelProtocol_of_looping.
Qed.

Lemma fromLooping_tryFinally {A : Type} (m : M' A) (f : M' unit) :
  fromLooping m -> respects cancelProtocol f -> fromLooping (tryFinally m f).
Proof.
  intros Hm Hf s Hlooping. specialize (Hm s Hlooping).
  unfold tryFinally, final, events in *.
  destruct (m s) as [[c s1] ev1]. cbn [fst snd] in *.
  specialize (Hf s1). unfold final, events in Hf.
  destruct (f s1) as [[[u|e] s2] ev2]; cbn [fst snd] in *;
    refine (proj2 (cancelProtocol_app s s1 s2 ev1 ev2 _ Hf) Hlooping);
    now apply cancelProtocol_of_looping.
Qed.

(** An iteration started on a looping session leaves it undisturbed or
    cancelled: the frame is captured before anybody can click. *)
Lemma loopBody_fromLooping w t r : fromLooping (loopBody w t r).
Proof.
  unfold loopBody.
  apply fromLooping_tryFinally; [|apply logPerformanceMetrics_cancelProtocol].
  apply fromLooping_tryCatch; [|intros e; protocol].
  apply fromLooping_after.
  { intros s Hlooping. repeat split; apply Hlooping. }
  intros _. apply fromLooping_after.
  { intros s Hlooping. repeat split; apply Hlooping. }
  intros _. apply fromLooping_of_respects. protocol.
Qed.

Lemma loopBody_normal w t r s :
  exists ctl r', completion (loopBody w t r s) = Normal (ctl, r').
Proof.
  unfold loopBody. unfold_monad. rewrite await_run. reduce.
  destruct (capture t) as [[img|]|e]; reduce;
    rewrite ?processImage_run; reduce;
    try destruct (processResult w t img _); reduce;
    rewrite logPerformanceMetrics_run; reduce; eexists; eexists; reflexivity.
Qed.

Lemma nextFrame_normal w t s : completion (nextFrame w t s) = Normal tt.
Proof.
  unfold nextFrame. unfold_monad. rewrite await_run. reflexivity.
Qed.

Lemma afterLoop_normal w r s : completion (afterLoop w r s) = Normal tt.
Proof.
  unfold afterLoop, saveScanMetrics, hideStats. unfold_monad.
  repeat (split_match; cbn); reflexivity.
Qed.

Lemma afterLoop_no_click w r s :
  existsb isCancelClick (events (afterLoop w r s)) = false.
Proof.
  unfold afterLoop, saveScanMetrics, hideStats. unfold_monad.
  repeat (split_match; cbn); reflexivity.
Qed.

Lemma afterLoop_stopped w r s :
  webcamStarted s = false ->
  afterLoop w r s = (Normal tt, s, [EvLog LevelInfo TfMemory]).
Proof.
  intros Hoff. unfold afterLoop. unfold_monad. rewrite Hoff.
  destruct r; reflexivity.
Qed.

(** The handler from the loop on, when the webcam is found stopped. *)
Lemma scanAndFinish_stopped w ticks r s :
  webcamStarted s = false ->
  scanAndFinish w ticks r s = (Normal Finished, s, [EvLog LevelInfo TfMemory]).
Proof.
  intros Hoff. unfold scanAndFinish.
  assert (Hloop : scanLoop w ticks r s = (Normal (Exited r), s, [])).
  { destruct ticks; cbn [scanLoop]; unfold_monad; rewrite Hoff; reflexivity. }
  unfold bind at 1. rewrite Hloop. unfold bind.
  rewrite (afterLoop_stopped w r s Hoff). reflexivity.
Qed.

(** The handler from the loop on, when the iteration ends in [break]. *)
Lemma scanAndFinish_break w t ticks r r' s :
  webcamStarted s = true ->
  completion (loopBody w t r s) = Normal (Brk, r') ->
  let run := scanAndFinish w (t :: ticks) r s in
  let s1 := final (loopBody w t r s) in
  completion run = Normal Finished
  /\ final run = final (afterLoop w r' s1)
  /\ events run
     = events (loopBody w t r s) ++ events (afterLoop w r' s1).
Proof.
  intros Hon Hbreak. unfold scanAndFinish. cbn [scanLoop].
  pose proof (afterLoop_normal w r' (final (loopBody w t r s))) as Hafter.
  unfold bind, isWebcamStarted, gets, ret, completion, final, events in *.
  rewrite Hon. cbn [negb].
  destruct (loopBody w t r s) as [[c s1] ev1]. cbn [fst snd] in *. subst c.
  cbn [fst snd app].
  destruct (afterLoop w r' s1) as [[c2 s2] ev2]. cbn [fst snd] in *. subst c2.
  rewrite !app_nil_r. repeat split.
Qed.

(** The handler from the loop on, when the iteration ends without
    [break]. *)
Lemma scanAndFinish_continue w t ticks r r' s :
  webcamStarted s = true ->
  completion (loopBody w t r s) = Normal (Cont, r') ->
  let run := scanAndFinish w (t :: ticks) r s in
  let s1 := final (loopBody w t r s) in
  let rest := scanAndFinish w ticks r' (final (nextFrame w t s1)) in
  completion run = completion rest
  /\ final run = final rest
  /\ events run
     = (events (loopBody w t r s) ++ events (nextFrame w t s1)) ++ events rest.
Proof.
  intros Hon Hcont. unfold scanAndFinish. cbn [scanLoop].
  pose proof (nextFrame_normal w t (final (loopBody w t r s))) as Hnext.
  unfold bind, isWebcamStarted, gets, ret, completion, final, events in *.
  rewrite Hon. cbn [negb].
  destruct (loopBody w t r s) as [[c s1] ev1]. cbn [fst snd] in *. subst c.
  cbn [fst snd app].
  destruct (nextFrame w t s1) as [[c2 s2] ev2]. cbn [fst snd] in *. subst c2.
  destruct (scanLoop w ticks r' s2) as [[[[result|result]|e] s3] ev3];
    cbn [fst snd app].
  - destruct (afterLoop w result s3) as [[[u|e] s4] ev4]; cbn [fst snd app];
      rewrite <- ?app_assoc; repeat split.
  - rewrite <- ?app_assoc. repeat split.
  - rewrite <- ?app_assoc. repeat split.
Qed.

Lemma bystander_log s (msg : LogMsg) :
  stopped s -> bystander s s ([EvLog LevelInfo msg] : list Event').
Proof. intros Hstopped. repeat split; apply Hstopped. Qed.

(** A session in which cancel is clicked ends cancelled. *)
Lemma cancelled_session w ticks :
  forall r s,
    looping s ->
    existsb isCancelClick (events (scanAndFinish w ticks r s)) = true ->
    completion (scanAndFinish w ticks r s) = Normal Finished
    /\ cancelledOutcome (final (scanAndFinish w ticks r s))
                        (events (scanAndFinish w ticks r s)).
Proof.
  induction ticks as [|t ticks IH]; intros r s Hlooping Hclick.
  - exfalso. revert Hclick. unfold scanAndFinish. cbn [scanLoop].
    unfold_monad. rewrite (proj1 Hlooping). discriminate.
  - destruct (loopBody_normal w t r s) as (ctl & r' & Hbody).
    pose proof (loopBody_fromLooping w t r s Hlooping) as Hrun.
    destruct ctl.
    + pose proof (scanAndFinish_break w t ticks r r' s (proj1 Hlooping) Hbody)
        as Hbreak.
      cbv zeta in Hbreak. destruct Hbreak as (Hcompletion & Hfinal & Hevents).
      rewrite Hevents in Hclick. rewrite Hcompletion, Hfinal, Hevents.
      split; [reflexivity|].
      destruct Hrun as [Hquiet | [Hclicked Hcancelled]].
      * exfalso.
        rewrite existsb_app, (proj1 (proj2 Hquiet)), afterLoop_no_click
          in Hclick.
        discriminate.
      * rewrite (afterLoop_stopped w r' _ (proj1 (proj1 Hcancelled))).
        cbn [final events fst snd].
        apply cancelledOutcome_then_bystander
          with (s1 := final (loopBody w t r s)); try assumption.
        apply bystander_log, Hcancelled.
    + pose proof (scanAndFinish_continue w t ticks r r' s (proj1 Hlooping) Hbody)
        as Hcontinue.
      cbv zeta in Hcontinue.
      destruct Hcontinue as (Hcompletion & Hfinal & Hevents).
      rewrite Hevents in Hclick. rewrite Hcompletion, Hfinal, Hevents.
      set (s1 := final (loopBody w t r s)) in *.
      set (s2 := final (nextFrame w t s1)) in *.
      assert (Hiteration :
                cancelProtocol s s2
                  (events (loopBody w t r s) ++ events (nextFrame w t s1))).
      { apply cancelProtocol_app with s1.
        - now apply cancelProtocol_of_looping.
        - apply nextFrame_cancelProtocol. }
      destruct (proj2 Hiteration Hlooping) as [Hquiet | [Hclicked Hcancelled]].
      * rewrite existsb_app, (proj1 (proj2 Hquiet)) in Hclick.
        destruct (IH r' s2 (proj1 Hquiet) Hclick) as [Hfinished Hout].
        split; [exact Hfinished|].
        now apply undisturbed_then_cancelledOutcome with s2.
      * rewrite (scanAndFinish_stopped w ticks r' s2 (proj1 (proj1 Hcancelled))).
        cbn [completion final events fst snd].
        split; [reflexivity|].
        apply cancelledOutcome_then_bystander with (s1 := s2); try assumption.
        apply bystander_log, Hcancelled.
Qed.

(** ** The sessions of [Tick] among those of [Concurrent] *)

Lemma bind_ext {A B : Type} (m m' : M' A) (f f' : A -> M' B) :
  (forall s, m s = m' s) ->
  (forall a s, f a s = f' a s) ->
  forall s, bind m f s = bind m' f' s.
Proof.
  intros Hm Hf s. unfold bind. rewrite Hm.
  destruct (m' s) as [[[a|e] s1] ev1]; [rewrite Hf|]; reflexivity.
Qed.

Lemma tryCatch_ext {A : Type} (m m' : M' A) (h : Error -> M' A) :
  (forall s, m s = m' s) -> forall s, tryCatch m h s = tryCatch m' h s.
Proof. intros Hm s. unfold tryCatch. rewrite Hm. reflexivity. Qed.

Lemma tryFinally_ext {A : Type} (m m' : M' A) (f : M' unit) :
  (forall s, m s = m' s) -> forall s, tryFinally m f s = tryFinally m' f s.
Proof. intros Hm s. unfold tryFinally. rewrite Hm. reflexivity. Qed.

Lemma suspended_cancelOnly w t p s :
  Concurrent.suspended (Concurrent.cancelOnly w t) p s = await w t p s.
Proof.
  unfold Concurrent.suspended, Concurrent.otherTask, Concurrent.cancelOnly.
  cbn [Concurrent.meanwhile]. rewrite await_run. reflexivity.
Qed.

Lemma processImage_cancelOnly w t img s :
  Concurrent.processImage w (Concurrent.cancelOnly w t) img s
  = processImage w t img s.
Proof.
  unfold Concurrent.processImage, processImage. apply tryCatch_ext.
  intros s1. unfold Concurrent.processImageBody, processImageBody.
  apply bind_ext; [reflexivity|]. intros _ s2.
  apply bind_ext; [apply suspended_cancelOnly | reflexivity].
Qed.

Lemma loopBody_cancelOnly w t r s :
  Concurrent.loopBody w (Concurrent.cancelOnly w t) r s = loopBody w t r s.
Proof.
  unfold Concurrent.loopBody, loopBody.
  apply tryFinally_ext. intros s1. apply tryCatch_ext. intros s2.
  apply bind_ext; [reflexivity|]. intros _ s3.
  apply bind_ext; [reflexivity|]. intros _ s4.
  apply bind_ext; [apply suspended_cancelOnly|]. intros _ s5.
  apply bind_ext; [reflexivity|]. intros imageData s6.
  apply bind_ext; [reflexivity|]. intros _ s7.
  destruct imageData as [img|]; [|reflexivity].
  apply bind_ext; [apply processImage_cancelOnly | reflexivity].
Qed.

Lemma nextFrame_cancelOnly w t s :
  Concurrent.nextFrame (Concurrent.cancelOnly w t) s = nextFrame w t s.
Proof.
  unfold Concurrent.nextFrame, nextFrame.
  apply bind_ext; [reflexivity|]. intros _ s1.
  apply bind_ext; [reflexivity|]. intros _ s2.
  unfold bind. rewrite suspended_cancelOnly, await_run.
  cbn. rewrite app_nil_r. reflexivity.
Qed.

Lemma scanLoop_cancelOnly w ticks :
  forall r s,
    Concurrent.scanLoop w (map (Concurrent.cancelOnly w) ticks) r s
    = scanLoop w ticks r s.
Proof.
  induction ticks as [|t ticks IH]; intros r s;
    cbn [map Concurrent.scanLoop scanLoop];
    (apply bind_ext; [reflexivity|]); intros started s1;
    destruct (negb started); try reflexivity.
  apply bind_ext; [apply loopBody_cancelOnly|]. intros step s2.
  destruct (fst step); [reflexivity|].
  apply bind_ext; [apply nextFrame_cancelOnly|]. intros _ s3. apply IH.
Qed.

(** With cancel clicks for all interference and [tf.nextFrame()]
    resolving, the handler among other tasks is the handler of [Tick]. *)
Lemma scanAndFinish_cancelOnly w ticks r s :
  Concurrent.scanAndFinish w (map (Concurrent.cancelOnly w) ticks) r s
  = scanAndFinish w ticks r s.
Proof.
  unfold Concurrent.scanAndFinish, scanAndFinish.
  apply bind_ext; [apply scanLoop_cancelOnly | reflexivity].
Qed.

Lemma onVideoClick_cancelOnly w ticks s :
  Concurrent.onVideoClick w (map (Concurrent.cancelOnly w) ticks) s
  = onVideoClick w ticks s.
Proof.
  unfold Concurrent.onVideoClick, onVideoClick.
  apply bind_ext; [reflexivity|]. intros started s1.
  destruct started; [reflexivity|].
  apply bind_ext; [reflexivity|]. intros ok s2.
  destruct (negb ok); [reflexivity|]. apply scanAndFinish_cancelOnly.
Qed.

(** C8, as the code has it: when the user clicks cancel in the course of
    a looping session, and the cancel handler is the only other task that
    runs while [onVideoClick] is suspended (no further click on the video
    in particular) and [tf.nextFrame()] resolves, the handler runs to its
    end without capturing another frame; the webcam is stopped and the
    cancel button hidden; the record posted is one, with outcome
    [cancelled]; and the display shows the instructions unless it was
    switched to the solution after the click, by the iteration that was
    under way. *)
Theorem cancel_ends_session w ticks r s :
  webcamStarted s = true ->
  cancelButton s = true ->
  let run :=
    Concurrent.scanAndFinish w (map (Concurrent.cancelOnly w) ticks) r s in
  In EvCancelClick (events run) ->
  completion run = Normal Finished
  /\ webcamStarted (final run) = false
  /\ cancelButton (final run) = false
  /\ (exists d, posts (events run) = [d] /\ smOutcome d = "cancelled")
  /\ existsb isCaptureWebcam (afterCancelClick (events run)) = false
  /\ (existsb isSetSolutionMode (afterCancelClick (events run)) = false ->
      displayMode (final run) = Some DISPLAY_MODE_INSTRUCTIONS).
Proof.
  intros Hon Hshown run. subst run. rewrite scanAndFinish_cancelOnly.
  intros Hclick. apply In_cancelClick in Hclick.
  destruct (cancelled_session w ticks r s (conj Hon Hshown) Hclick)
    as (Hfinished & (Hoff & Hhidden) & Hposted & Hcaptured & Hmode).
  repeat split; assumption.
Qed.

(** Without a click while the frame is captured and scanned, the
    iteration leaves the session as it was. *)
Lemma loopBody_undisturbed w t r s :
  cancelAt t <> Some AwaitCaptureWebcam ->
  cancelAt t <> Some AwaitScanPuzzle ->
  let run := loopBody w t r s in
  webcamStarted (final run) = webcamStarted s
  /\ cancelButton (final run) = cancelButton s
  /\ existsb isCancelClick (events run) = false.
Proof.
  intros Hcapturing Hscanning run. subst run.
  unfold loopBody. unfold_monad. rewrite await_run.
  destruct (await_undisturbed w t AwaitCaptureWebcam (set_marks [] s) Hcapturing)
    as [-> ->].
  reduce. destruct (capture t) as [[img|]|e]; reduce.
  - rewrite processImage_run.
    match goal with
    | |- context [afterProcess w t img ?s1] =>
        destruct (processImage_undisturbed w t img s1 Hscanning)
          as (_ & Hwebcam & Hbutton & Hclick)
    end.
    destruct (processResult w t img _); leave_loopBody;
      rewrite ?Hwebcam, ?Hbutton, ?Hclick; reflexivity.
  - leave_loopBody.
  - leave_loopBody.
Qed.

Lemma nextFrame_click w t s :
  cancelAt t = Some AwaitNextFrame ->
  cancelButton s = true ->
  let run := nextFrame w t s in
  webcamStarted (final run) = false
  /\ displayMode (final run) = Some DISPLAY_MODE_INSTRUCTIONS
  /\ existsb isCancelClick (events run) = true.
Proof.
  intros Hboundary Hshown run. subst run.
  unfold nextFrame, await, cancelClick, onCancel, saveScanMetrics, hideStats.
  unfold_monad. rewrite Hboundary. cbn. rewrite Hshown.
  repeat (split_match; cbn); repeat split; reflexivity.
Qed.

(** A click on cancel at the iteration boundary, while the loop waits in
    [tf.nextFrame()]: the loop is left at its next test and the display
    shows the instructions. *)
Lemma cancel_at_boundary w t ticks r r' s :
  webcamStarted s = true ->
  cancelButton s = true ->
  cancelAt t = Some AwaitNextFrame ->
  completion (loopBody w t r s) = Normal (Cont, r') ->
  let run := scanAndFinish w (t :: ticks) r s in
  completion run = Normal Finished
  /\ In EvCancelClick (events run)
  /\ displayMode (final run) = Some DISPLAY_MODE_INSTRUCTIONS.
Proof.
  intros Hon Hshown Hboundary Hcont run. subst run.
  pose proof (scanAndFinish_continue w t ticks r r' s Hon Hcont) as Hcontinue.
  cbv zeta in Hcontinue. destruct Hcontinue as (Hcompletion & Hfinal & Hevents).
  destruct (loopBody_undisturbed w t r s) as (_ & Hbutton & _);
    try (rewrite Hboundary; discriminate).
  cbv zeta in Hbutton. rewrite Hshown in Hbutton.
  destruct (nextFrame_click w t _ Hboundary Hbutton) as (Hoff & Hmode & Hclick).
  rewrite Hcompletion, Hfinal, Hevents.
  rewrite (scanAndFinish_stopped w ticks r' _ Hoff).
  cbn [completion final events fst snd].
  repeat split; [|exact Hmode].
  apply In_cancelClick. rewrite !existsb_app, Hclick.
  rewrite orb_true_r. reflexivity.
Qed.

(** ** Telemetry *)

(** X1: whatever the transport does, [saveScanMetrics] returns normally
    and touches nothing but the clock; it posts one record, which carries
    the outcome, the frame count, the time since [startTime], the snapshot
    and the solution it was given; a rejected post is logged at level
    error and never reaches the error panel. *)
Theorem saveScanMetrics_is_best_effort w outcome url sol s :
  let run := saveScanMetrics w outcome url sol s in
  completion run = Normal tt
  /\ final run = set_clock (clock s + 1) s
  /\ existsb isShowErrorPanel (events run) = false
  /\ exists d,
       posts (events run) = [d]
       /\ smOutcome d = outcome
       /\ smFrameCount d = frameCount s
       /\ smDuration d = (clock s - startTime s)%Z
       /\ smImageDataURL d = url
       /\ smSolution d = sol
       /\ errorLog (events run)
          = match axiosPost w d with
            | Normal _ => []
            | Thrown e =>
                [Text (String.append "[saveScanMetrics] " (message e))]
            end.
Proof.
  intros run. subst run. unfold saveScanMetrics. unfold_monad.
  cbn -[Z.add Z.sub slice_last String.append].
  match goal with
  | |- context [axiosPost w ?d] =>
      destruct (axiosPost w d) as [[]|e] eqn:Hpost
  end; cbn -[Z.add Z.sub slice_last String.append];
    (split; [reflexivity|]; split; [reflexivity|]; split; [reflexivity|];
     eexists; split; [reflexivity|];
     cbn -[Z.add Z.sub slice_last String.append];
     rewrite Hpost; repeat split).
Qed.

(** X2: [onCancel] returns normally whatever the state and the transport:
    it shows the instructions, hides the cancel button, stops the webcam
    and posts one record with outcome [cancelled], without snapshot or
    solution, carrying the frame count as it stands; it neither resets the
    metrics nor shows the error panel. *)
Theorem onCancel_effect w s :
  let run := onCancel w s in
  completion run = Normal tt
  /\ webcamStarted (final run) = false
  /\ cancelButton (final run) = false
  /\ displayMode (final run) = Some DISPLAY_MODE_INSTRUCTIONS
  /\ errorPanel (final run) = errorPanel s
  /\ frameCount (final run) = frameCount s
  /\ markss (final run) = markss s
  /\ startTime (final run) = startTime s
  /\ existsb isShowErrorPanel (events run) = false
  /\ exists d,
       posts (events run) = [d]
       /\ smOutcome d = "cancelled"
       /\ smFrameCount d = frameCount s
       /\ smImageDataURL d = None
       /\ smSolution d = None.
Proof.
  intros run. subst run. unfold onCancel, saveScanMetrics, hideStats.
  unfold_monad.
  repeat (split_match; cbn -[Z.add Z.sub slice_last String.append]);
    repeat match goal with u : unit |- _ => destruct u end;
    repeat (split; [reflexivity|]); eexists; repeat split.
Qed.

(** ** Starting a session *)

(** The state a successful start leaves for the loop, and the handler as
    the start followed by the loop. *)
Lemma started_state w s :
  webcamStarted s = false ->
  startWebcamResult w = Normal tt ->
  final (onVideoClick w [] s)
  = (if fpsOn w then set_stats true else fun s1 => s1)
      (set_cancelButton true
         (set_displayMode (Some DISPLAY_MODE_VIDEO)
            (set_webcamStarted true
               (set_markss []
                  (set_frameCount 0
                     (set_startTime (clock s)
                        (set_clock (clock s + 1)
                           (set_errorPanel None s)))))))).
Proof.
  intros Hoff Hstart.
  unfold onVideoClick, scanAndFinish, resetScanMetrics, showStats.
  cbn [scanLoop]. unfold_monad. rewrite Hoff, Hstart.
  destruct (fpsOn w); reflexivity.
Qed.

Lemma onVideoClick_hands_over w ticks s :
  webcamStarted s = false ->
  startWebcamResult w = Normal tt ->
  let rest := scanAndFinish w ticks None (final (onVideoClick w [] s)) in
  completion (onVideoClick w ticks s) = completion rest
  /\ final (onVideoClick w ticks s) = final rest
  /\ events (onVideoClick w ticks s)
     = [EvHideErrorPanel; EvStartWebcam; EvSetDisplayMode DISPLAY_MODE_VIDEO;
        EvShowCancelButton] ++ events rest.
Proof.
  intros Hoff Hstart. cbv zeta. rewrite (started_state w s Hoff Hstart).
  unfold onVideoClick, resetScanMetrics, showStats.
  unfold_monad. rewrite Hoff, Hstart.
  destruct (fpsOn w); cbn -[scanAndFinish Z.add];
    match goal with
    | |- context [scanAndFinish w ticks None ?s0] =>
        destruct (scanAndFinish w ticks None s0) as [[c s1] ev1]
    end;
    repeat split.
Qed.

Lemma onVideoClick_start_failure w ticks s e :
  webcamStarted s = false ->
  startWebcamResult w = Thrown e ->
  onVideoClick w ticks s
  = (Normal StartFailed,
     set_errorPanel (Some (PanelError e))
       (set_markss []
          (set_frameCount 0
             (set_startTime (clock s)
                (set_clock (clock s + 1) (set_errorPanel None s))))),
     [EvHideErrorPanel; EvStartWebcam;
      EvLog LevelError (Text (String.append "[onVideoClick] " (message e)));
      EvShowErrorPanel (PanelError e)]).
Proof.
  intros Hoff Hstart.
  unfold onVideoClick, resetScanMetrics. unfold_monad.
  rewrite Hoff, Hstart. reflexivity.
Qed.

(** X3: when the webcam cannot be started, [onVideoClick] logs the error,
    shows it in the error panel and returns without entering the loop:
    no frame is captured, nothing is posted, the webcam is not started,
    the display mode and the cancel button are as they were.  The metrics
    were reset before the attempt. *)
Theorem start_failure_is_surfaced w ticks s e :
  webcamStarted s = false ->
  startWebcamResult w = Thrown e ->
  let run := onVideoClick w ticks s in
  completion run = Normal StartFailed
  /\ events run
     = [EvHideErrorPanel; EvStartWebcam;
        EvLog LevelError (Text (String.append "[onVideoClick] " (message e)));
        EvShowErrorPanel (PanelError e)]
  /\ errorPanel (final run) = Some (PanelError e)
  /\ webcamStarted (final run) = false
  /\ displayMode (final run) = displayMode s
  /\ cancelButton (final run) = cancelButton s
  /\ frameCount (final run) = 0
  /\ markss (final run) = [].
Proof.
  intros Hoff Hstart run. subst run.
  rewrite (onVideoClick_start_failure w ticks s e Hoff Hstart).
  cbn. repeat split; assumption.
Qed.

(** X4: a successful start hides the error panel, resets the metrics,
    shows the video and the cancel button, and hands over to the loop: the
    session is then the loop run on the state the start left, with
    [result] unset. *)
Theorem start_success_hands_over w ticks s :
  webcamStarted s = false ->
  startWebcamResult w = Normal tt ->
  let s0 := final (onVideoClick w [] s) in
  let rest := scanAndFinish w ticks None s0 in
  looping s0
  /\ displayMode s0 = Some DISPLAY_MODE_VIDEO
  /\ errorPanel s0 = None
  /\ frameCount s0 = 0
  /\ markss s0 = []
  /\ startTime s0 = clock s
  /\ completion (onVideoClick w ticks s) = completion rest
  /\ final (onVideoClick w ticks s) = final rest
  /\ events (onVideoClick w ticks s)
     = [EvHideErrorPanel; EvStartWebcam; EvSetDisplayMode DISPLAY_MODE_VIDEO;
        EvShowCancelButton] ++ events rest.
Proof.
  intros Hoff Hstart s0 rest.
  pose proof (onVideoClick_hands_over w ticks s Hoff Hstart) as Hrest.
  cbv zeta in Hrest. fold s0 in Hrest. fold rest in Hrest.
  assert (Hstate : looping s0
                   /\ displayMode s0 = Some DISPLAY_MODE_VIDEO
                   /\ errorPanel s0 = None
                   /\ frameCount s0 = 0
                   /\ markss s0 = []
                   /\ startTime s0 = clock s).
  { subst s0. rewrite (started_state w s Hoff Hstart). unfold looping.
    destruct (fpsOn w); repeat split. }
  destruct Hstate as (Hlooping & ? & ? & ? & ? & ?).
  destruct Hrest as (? & ? & ?).
  split; [exact Hlooping|]. repeat split; assumption.
Qed.

(** ** Leaving the loop *)

Lemma afterLoop_without_result w s :
  afterLoop w None s = (Normal tt, s, [EvLog LevelInfo TfMemory]).
Proof. unfold afterLoop. unfold_monad. reflexivity. Qed.

(** X5: when [captureWebcam] returns nothing the loop is left at once and
    the handler returns without an outcome: nothing is posted, nothing is
    shown as an error, and, unless the user cancelled meanwhile, the
    webcam stays started, the cancel button stays as it was and so does the
    display mode.  The frame is counted all the same. *)
Theorem no_frame_ends_silently w t ticks s :
  webcamStarted s = true ->
  capture t = Normal None ->
  cancelAt t <> Some AwaitCaptureWebcam ->
  let run := scanAndFinish w (t :: ticks) None s in
  completion run = Normal Finished
  /\ posts (events run) = []
  /\ existsb isShowErrorPanel (events run) = false
  /\ length (filter isCaptureWebcam (events run)) = 1
  /\ webcamStarted (final run) = true
  /\ cancelButton (final run) = cancelButton s
  /\ displayMode (final run) = displayMode s
  /\ frameCount (final run) = S (frameCount s).
Proof.
  intros Hon Hcapture Hquiet run. subst run.
  assert (Hbody :
            exists s1 ev1,
              loopBody w t None s = (Normal (Brk, None), s1, ev1)
              /\ posts ev1 = []
              /\ existsb isShowErrorPanel ev1 = false
              /\ length (filter isCaptureWebcam ev1) = 1
              /\ webcamStarted s1 = true
              /\ cancelButton s1 = cancelButton s
              /\ displayMode s1 = displayMode s
              /\ frameCount s1 = S (frameCount s)).
  { unfold loopBody. unfold_monad. rewrite await_run.
    destruct (await_undisturbed w t AwaitCaptureWebcam (set_marks [] s) Hquiet)
      as [-> ->].
    reduce. rewrite Hcapture. reduce. rewrite logPerformanceMetrics_run.
    reduce. eexists. eexists. split; [reflexivity|].
    rewrite duringLog_lines. reduce. repeat split; assumption. }
  destruct Hbody as (s1 & ev1 & Hrun & Hposts & Hpanel & Hcaptures & Hstate).
  assert (Hbreak : completion (loopBody w t None s) = Normal (Brk, None))
    by (rewrite Hrun; reflexivity).
  pose proof (scanAndFinish_break w t ticks None None s Hon Hbreak) as Hleft.
  cbv zeta in Hleft. destruct Hleft as (Hcompletion & Hfinal & Hevents).
  rewrite Hcompletion, Hfinal, Hevents, Hrun.
  cbn [final events fst snd]. rewrite afterLoop_without_result.
  cbn [final events fst snd].
  rewrite posts_app, existsb_app, filter_app, length_app, Hposts, Hpanel,
    Hcaptures.
  repeat split; apply Hstate.
Qed.

(** ** Errors that leave the handler *)

Section ThrowsOnly.

Variable P : Error -> Prop.

Lemma throwsOnly_ret {A : Type} (a : A) :
  Concurrent.throwsOnly P (ret a : M' A).
Proof. intros s. exact I. Qed.

Lemma throwsOnly_emit (ev : Event') : Concurrent.throwsOnly P (emit ev).
Proof. intros s. exact I. Qed.

Lemma throwsOnly_gets {A : Type} (f : State -> A) :
  Concurrent.throwsOnly P (gets f : M' A).
Proof. intros s. exact I. Qed.

Lemma throwsOnly_modify (f : State -> State) :
  Concurrent.throwsOnly P (modify f : M' unit).
Proof. intros s. exact I. Qed.

Lemma throwsOnly_otherTask {A : Type} (task : M' A) :
  Concurrent.throwsOnly P (Concurrent.otherTask task).
Proof. intros s. exact I. Qed.

Lemma throwsOnly_bind {A B : Type} (m : M' A) (f : A -> M' B) :
  Concurrent.throwsOnly P m ->
  (forall a, Concurrent.throwsOnly P (f a)) ->
  Concurrent.throwsOnly P (bind m f).
Proof.
  intros Hm Hf s. specialize (Hm s). unfold bind, completion in *.
  destruct (m s) as [[[a|e] s1] ev1]; cbn [fst] in *; [|exact Hm].
  specialize (Hf a s1). unfold completion in Hf.
  destruct (f a s1) as [[c s2] ev2]. exact Hf.
Qed.

(** What the [try] block throws is caught: only the handler counts. *)
Lemma throwsOnly_tryCatch {A : Type} (m : M' A) (h : Error -> M' A) :
  (forall e, Concurrent.throwsOnly P (h e)) ->
  Concurrent.throwsOnly P (tryCatch m h).
Proof.
  intros Hh s. unfold tryCatch, completion.
  destruct (m s) as [[[a|e] s1] ev1]; [exact I|].
  specialize (Hh e s1). unfold completion in Hh.
  destruct (h e s1) as [[c s2] ev2]. exact Hh.
Qed.

Lemma throwsOnly_tryFinally {A : Type} (m : M' A) (f : M' unit) :
  Concurrent.throwsOnly P m ->
  Concurrent.throwsOnly P f ->
  Concurrent.throwsOnly P (tryFinally m f).
Proof.
  intros Hm Hf s. specialize (Hm s). unfold tryFinally, completion in *.
  destruct (m s) as [[c s1] ev1]. cbn [fst] in Hm.
  specialize (Hf s1). unfold completion in Hf.
  destruct (f s1) as [[[u|e] s2] ev2]; cbn [fst] in *; assumption.
Qed.

Lemma throwsOnly_forEach {A : Type} (l : list A) (f : A -> M' unit) :
  (forall x, Concurrent.throwsOnly P (f x)) ->
  Concurrent.throwsOnly P (forEach l f).
Proof.
  intros Hf. induction l as [|x l IH]; cbn [forEach].
  - apply throwsOnly_ret.
  - apply throwsOnly_bind; [apply Hf | intros _; exact IH].
Qed.

End ThrowsOnly.

Lemma throwsOnly_weaken (P Q : Error -> Prop) {A : Type} (m : M' A) :
  (forall e, P e -> Q e) ->
  Concurrent.throwsOnly P m -> Concurrent.throwsOnly Q m.
Proof.
  intros HPQ Hm s. specialize (Hm s).
  destruct (completion (m s)); [exact I | now apply HPQ].
Qed.

(** The steps of a handler that is not inside a [try]: none of them may
    throw. *)
Ltac contained :=
  unfold afterLoop, saveScanMetrics, onCancel, hideStats, showStats,
         resetScanMetrics, logPerformanceMetrics, Concurrent.suspended,
         performance_clearMarks, performance_mark, performance_now,
         performance_getMarks, isWebcamStarted, stopWebcam,
         setDisplayMode, showCancelButton, hideCancelButton,
         showErrorPanel, hideErrorPanel, log_error, log_info;
  repeat first
    [ progress cbv zeta
    | apply throwsOnly_ret
    | apply throwsOnly_emit
    | apply throwsOnly_gets
    | apply throwsOnly_modify
    | apply throwsOnly_otherTask
    | apply throwsOnly_bind; [|intros ?]
    | apply throwsOnly_tryCatch; intros ?
    | apply throwsOnly_tryFinally
    | apply throwsOnly_forEach; intros ?
    | match goal with
      | |- Concurrent.throwsOnly _ (match ?x with _ => _ end) => destruct x
      end ].

(** Every call of an iteration that may throw is inside its [try]. *)
Lemma loopBody_contained (P : Error -> Prop) w (turn : Concurrent.Turn) r :
  Concurrent.throwsOnly P (Concurrent.loopBody w turn r).
Proof. unfold Concurrent.loopBody. contained. Qed.

Lemma afterLoop_contained (P : Error -> Prop) w r :
  Concurrent.throwsOnly P (afterLoop w r).
Proof. contained. Qed.

(** [await tf.nextFrame()] is outside every [try]. *)
Lemma nextFrame_throws (turn : Concurrent.Turn) (turns : list Concurrent.Turn) :
  Concurrent.throwsOnly (Concurrent.fromNextFrame (turn :: turns))
    (Concurrent.nextFrame turn : M' unit).
Proof.
  unfold Concurrent.nextFrame.
  apply throwsOnly_bind; [contained|]. intros _.
  apply throwsOnly_bind; [contained|]. intros _.
  apply throwsOnly_bind; [contained|]. intros _.
  intros s. unfold lift, completion. cbn [fst].
  destruct (Concurrent.nextFrameResult turn) as [u|e] eqn:Hrejected;
    [exact I|].
  exists turn. split; [now left | exact Hrejected].
Qed.

Lemma scanLoop_throws w (turns : list Concurrent.Turn) :
  forall r,
    Concurrent.throwsOnly (Concurrent.fromNextFrame turns)
      (Concurrent.scanLoop w turns r).
Proof.
  induction turns as [|turn turns IH]; intros r; cbn [Concurrent.scanLoop].
  - contained.
  - apply throwsOnly_bind; [contained|]. intros started.
    destruct (negb started); [contained|].
    apply throwsOnly_bind; [apply loopBody_contained|]. intros step.
    destruct (fst step); [contained|].
    apply throwsOnly_bind; [apply nextFrame_throws|]. intros _.
    apply throwsOnly_weaken with (P := Concurrent.fromNextFrame turns);
      [|apply IH].
    intros e (turn' & Hin & Hrejected). exists turn'.
    split; [now right | exact Hrejected].
Qed.

Lemma onVideoClick_throws w (turns : list Concurrent.Turn) :
  Concurrent.throwsOnly (Concurrent.fromNextFrame turns)
    (Concurrent.onVideoClick w turns).
Proof.
  unfold Concurrent.onVideoClick, Concurrent.scanAndFinish.
  apply throwsOnly_bind; [contained|]. intros started.
  destruct started; [contained|].
  apply throwsOnly_bind; [contained|]. intros ok.
  destruct (negb ok); [contained|].
  apply throwsOnly_bind; [apply scanLoop_throws|].
  intros [result|result]; [|contained].
  apply throwsOnly_bind; [apply afterLoop_contained | intros _; contained].
Qed.

(** The iteration went round and [tf.nextFrame()] was rejected: the call
    is rejected with that error. *)
Lemma nextFrame_rejection_escapes w (turn : Concurrent.Turn)
    (turns : list Concurrent.Turn) r r' s e :
  webcamStarted s = true ->
  completion (Concurrent.loopBody w turn r s) = Normal (Cont, r') ->
  Concurrent.nextFrameResult turn = Thrown e ->
  completion (Concurrent.scanAndFinish w (turn :: turns) r s) = Thrown e.
Proof.
  intros Hon Hbody Hrejected.
  unfold Concurrent.scanAndFinish. cbn [Concurrent.scanLoop].
  unfold Concurrent.nextFrame, Concurrent.suspended, Concurrent.otherTask.
  unfold_monad. rewrite Hon. cbn [negb].
  unfold completion in Hbody.
  destruct (Concurrent.loopBody w turn r s) as [[c s1] ev1].
  cbn [fst] in Hbody. subst c. cbn [fst snd]. rewrite Hrejected. reflexivity.
Qed.

(** X6: of the errors that the collaborators of [onVideoClick] throw,
    those of [startWebcam], [captureWebcam], [scanPuzzle], the validator,
    the puzzle builder, the solver, [drawPuzzle], [imageDataToDataURL] and
    [axios.post] never leave the handler, whatever other tasks run at its
    [await]s: the call completes normally, or it is rejected with an error
    that [tf.nextFrame()] was rejected with.  That call is outside every
    [try]: when it is rejected at the end of an iteration that did not
    break, the call of [onVideoClick] is rejected with the same error. *)
Theorem only_nextFrame_errors_escape w (turns : list Concurrent.Turn) s :
  ((exists status,
       completion (Concurrent.onVideoClick w turns s) = Normal status)
   \/ (exists e,
         completion (Concurrent.onVideoClick w turns s) = Thrown e
         /\ Concurrent.fromNextFrame turns e))
  /\ (forall turn rest r r' s1 e,
        webcamStarted s1 = true ->
        completion (Concurrent.loopBody w turn r s1) = Normal (Cont, r') ->
        Concurrent.nextFrameResult turn = Thrown e ->
        completion (Concurrent.scanAndFinish w (turn :: rest) r s1)
        = Thrown e).
Proof.
  split.
  - pose proof (onVideoClick_throws w turns s) as Hrun.
    destruct (completion (Concurrent.onVideoClick w turns s)) as [status|e].
    + left. exists status. reflexivity.
    + right. exists e. split; [reflexivity | exact Hrun].
  - intros turn rest r r' s1 e. apply nextFrame_rejection_escapes.
Qed.

(** ** Frames counted and frames kept *)

Lemma countedFrames_nil s : countedFrames s s ([] : list Event').
Proof. intros Hcount. split; [exact Hcount | constructor]. Qed.

Lemma countedFrames_app s s1 s2 (evs evs' : list Event') :
  countedFrames s s1 evs -> countedFrames s1 s2 evs' ->
  countedFrames s s2 (evs ++ evs').
Proof.
  intros H1 H2 Hcount. destruct (H1 Hcount) as [Hcount1 Hevs].
  destruct (H2 Hcount1) as [Hcount2 Hevs'].
  split; [exact Hcount2 | apply Forall_app; now split].
Qed.

Lemma countedFrames_modify (f : State -> State) :
  (forall s, frameCount (f s) = frameCount s) ->
  (forall s, markss (f s) = markss s) ->
  respects countedFrames (modify f : M' unit).
Proof.
  intros Hcount Hmarkss s Hs. cbn. rewrite Hcount, Hmarkss.
  split; [exact Hs | constructor].
Qed.

Lemma countedFrames_emit (ev : Event') :
  postConsistent ev -> respects countedFrames (emit ev).
Proof. intros Hev s Hs. split; [exact Hs | repeat constructor; exact Hev]. Qed.

Lemma saveScanMetrics_counted w outcome url sol :
  respects countedFrames (saveScanMetrics w outcome url sol).
Proof.
  intros s Hs.
  unfold saveScanMetrics, performance_now, log_error. unfold_monad.
  cbn -[slice_last Z.add Z.sub Nat.min].
  match goal with
  | |- context [axiosPost w ?d] => destruct (axiosPost w d)
  end;
    cbn -[slice_last Z.add Z.sub Nat.min];
    (split; [exact Hs|]);
    repeat constructor;
    cbn -[slice_last Nat.min];
    unfold slice_last; rewrite length_skipn; lia.
Qed.

Lemma logPerformanceMetrics_counted :
  respects countedFrames (logPerformanceMetrics : M' unit).
Proof.
  intros s Hs. rewrite logPerformanceMetrics_run. cbn [final events fst snd].
  split.
  - unfold afterLog. destruct (marks s); [exact Hs|].
    cbn. rewrite length_app. cbn. lia.
  - rewrite duringLog_lines. apply Forall_forall. intros ev Hev.
    apply in_map_iff in Hev. destruct Hev as (line & <- & _). exact I.
Qed.

Ltac counted_leaf :=
  first
    [ apply saveScanMetrics_counted
    | apply logPerformanceMetrics_counted
    | apply countedFrames_modify; intros ?; reflexivity
    | apply countedFrames_emit; exact I ].

Ltac counted :=
  unfold afterLoop, nextFrame, loopBody, processImage, processImageBody,
         await, cancelClick, onCancel, hideStats, showStats,
         performance_clearMarks, performance_mark, performance_now,
         performance_getMarks, isWebcamStarted, startWebcam, stopWebcam,
         setDisplayMode, showCancelButton, hideCancelButton,
         showErrorPanel, hideErrorPanel, log_error, log_info;
  structural countedFrames_nil countedFrames_app counted_leaf.

Lemma loopBody_counted w t r : respects countedFrames (loopBody w t r).
Proof. counted. Qed.

Lemma nextFrame_counted w t : respects countedFrames (nextFrame w t).
Proof. counted. Qed.

Lemma afterLoop_counted w r : respects countedFrames (afterLoop w r).
Proof. counted. Qed.

Lemma scanLoop_counted w ticks :
  forall r, respects countedFrames (scanLoop w ticks r).
Proof.
  induction ticks as [|t ticks IH]; intros r; cbn [scanLoop].
  - counted.
  - apply (respects_bind _ countedFrames_app); [counted|]. intros started.
    destruct (negb started); [counted|].
    apply (respects_bind _ countedFrames_app); [apply loopBody_counted|].
    intros step. destruct (fst step); [counted|].
    apply (respects_bind _ countedFrames_app); [apply nextFrame_counted|].
    intros _. apply IH.
Qed.

Lemma scanAndFinish_counted w ticks r :
  respects countedFrames (scanAndFinish w ticks r).
Proof.
  unfold scanAndFinish.
  apply (respects_bind _ countedFrames_app); [apply scanLoop_counted|].
  intros [result|result]; [|counted].
  apply (respects_bind _ countedFrames_app); [apply afterLoop_counted|].
  intros _. counted.
Qed.

(** X7: the frame counter and the mark log move together.  From a start
    of [onVideoClick] on, [frameCount] is the number of entries of
    [markss], and every record posted, on completion or on cancel, holds
    the marks of the last [min 100 frameCount] frames it reports. *)
Theorem frames_counted_and_kept w ticks s :
  webcamStarted s = false ->
  let run := onVideoClick w ticks s in
  frameCount (final run) = length (markss (final run))
  /\ Forall postConsistent (events run).
Proof.
  intros Hoff run. subst run.
  destruct (startWebcamResult w) as [[]|e] eqn:Hstart.
  - pose proof (onVideoClick_hands_over w ticks s Hoff Hstart) as Hrest.
    cbv zeta in Hrest. destruct Hrest as (_ & Hfinal & Hevents).
    rewrite Hfinal, Hevents.
    destruct (scanAndFinish_counted w ticks None
                (final (onVideoClick w [] s))) as [Hcount Hposts].
    { rewrite (started_state w s Hoff Hstart). destruct (fpsOn w); reflexivity. }
    split; [exact Hcount|].
    apply Forall_app. split; [repeat constructor | exact Hposts].
  - rewrite (onVideoClick_start_failure w ticks s e Hoff Hstart).
    cbn. split; [reflexivity | repeat constructor].
Qed.

(** ** The marks of an iteration *)



(** ** What is drawn *)

Lemma drawn_app (evs evs' : list Event') :
  drawn (evs ++ evs') = drawn evs ++ drawn evs'.
Proof.
  induction evs as [|ev evs IH]; [reflexivity|].
  destruct ev; cbn; rewrite IH; reflexivity.
Qed.

Lemma drawn_duringAwait w t p s : drawn (duringAwait w t p s) = [].
Proof. await_fact. Qed.

Lemma passedTheGates_later w (evs evs' : list Event') initialValues sol :
  passedTheGates w evs' initialValues sol ->
  passedTheGates w (evs ++ evs') initialValues sol.
Proof.
  intros (img & dps & puzzle & Hscanned & Hgates).
  exists img, dps, puzzle. split; [|exact Hgates].
  apply in_or_app. now right.
Qed.

Lemma passedTheGates_earlier w (evs evs' : list Event') initialValues sol :
  passedTheGates w evs initialValues sol ->
  passedTheGates w (evs ++ evs') initialValues sol.
Proof.
  intros (img & dps & puzzle & Hscanned & Hgates).
  exists img, dps, puzzle. split; [|exact Hgates].
  apply in_or_app. now left.
Qed.

Lemma processImage_checkedDraws w t img :
  respects (checkedDraws w) (processImage w t img).
Proof.
  intros s. rewrite processImage_run. cbn [final events fst snd].
  intros initialValues sol.
  unfold_processImage. run; reduce.
  all: rewrite ?drawn_app, ?drawn_duringAwait; cbn [drawn app In].
  all: try tauto.
  all: intros [Hdrawn|[]]; injection Hdrawn as <- <-.
  all: match goal with
       | Hscan : scanPuzzle _ ?frame = Normal ?dps,
         Hpuzzle : digitPredictionsToPuzzle _ ?dps = Normal ?puzzle |- _ =>
           exists frame, dps, puzzle
       end.
  all: repeat match goal with
         | H : (_ <? _)%nat = false |- _ => apply Nat.ltb_ge in H
         | H : negb _ = false |- _ => apply negb_false_iff in H
         | H : (length (_ :: ?l) =? 1)%nat = true |- _ =>
             destruct l; [clear H | discriminate H]
         end.
  all: subst.
  all: repeat split; try assumption; left; reflexivity.
Qed.

Lemma checkedDraws_nil w s : checkedDraws w s s ([] : list Event').
Proof. intros initialValues sol []. Qed.

Lemma checkedDraws_app w s s1 s2 (evs evs' : list Event') :
  checkedDraws w s s1 evs -> checkedDraws w s1 s2 evs' ->
  checkedDraws w s s2 (evs ++ evs').
Proof.
  intros H1 H2 initialValues sol Hdrawn.
  rewrite drawn_app in Hdrawn. apply in_app_or in Hdrawn.
  destruct Hdrawn as [Hdrawn | Hdrawn].
  - apply passedTheGates_earlier, H1, Hdrawn.
  - apply passedTheGates_later, H2, Hdrawn.
Qed.

Lemma checkedDraws_modify w (f : State -> State) :
  respects (checkedDraws w) (modify f : M' unit).
Proof. intros s initialValues sol []. Qed.

Lemma checkedDraws_emit w (ev : Event') :
  drawn [ev] = [] -> respects (checkedDraws w) (emit ev).
Proof.
  intros Hev s initialValues sol Hdrawn. cbn [events emit snd] in Hdrawn.
  rewrite Hev in Hdrawn. destruct Hdrawn.
Qed.

Ltac checked_leaf w :=
  first
    [ apply processImage_checkedDraws
    | apply checkedDraws_modify
    | apply checkedDraws_emit; reflexivity ].

Ltac checked w :=
  unfold afterLoop, nextFrame, loopBody,
         await, cancelClick, onCancel, saveScanMetrics, hideStats, showStats,
         resetScanMetrics, logPerformanceMetrics,
         performance_clearMarks, performance_mark, performance_now,
         performance_getMarks, isWebcamStarted, startWebcam, stopWebcam,
         setDisplayMode, showCancelButton, hideCancelButton,
         showErrorPanel, hideErrorPanel, log_error, log_info;
  structural (checkedDraws_nil w) (checkedDraws_app w) ltac:(checked_leaf w).

Lemma loopBody_checkedDraws w t r : respects (checkedDraws w) (loopBody w t r).
Proof. checked w. Qed.

Lemma nextFrame_checkedDraws w t : respects (checkedDraws w) (nextFrame w t).
Proof. checked w. Qed.

Lemma afterLoop_checkedDraws w r : respects (checkedDraws w) (afterLoop w r).
Proof. checked w. Qed.

Lemma scanLoop_checkedDraws w ticks :
  forall r, respects (checkedDraws w) (scanLoop w ticks r).
Proof.
  induction ticks as [|t ticks IH]; intros r; cbn [scanLoop].
  - checked w.
  - apply (respects_bind _ (checkedDraws_app w)); [checked w|]. intros started.
    destruct (negb started); [checked w|].
    apply (respects_bind _ (checkedDraws_app w));
      [apply loopBody_checkedDraws|].
    intros step. destruct (fst step); [checked w|].
    apply (respects_bind _ (checkedDraws_app w));
      [apply nextFrame_checkedDraws|].
    intros _. apply IH.
Qed.

Lemma onVideoClick_checkedDraws w ticks :
  respects (checkedDraws w) (onVideoClick w ticks).
Proof.
  unfold onVideoClick, scanAndFinish.
  apply (respects_bind _ (checkedDraws_app w)); [checked w|]. intros started.
  destruct started; [checked w|].
  apply (respects_bind _ (checkedDraws_app w)); [checked w|]. intros ok.
  destruct (negb ok); [checked w|].
  apply (respects_bind _ (checkedDraws_app w));
    [apply scanLoop_checkedDraws|].
  intros [result|result]; [|checked w].
  apply (respects_bind _ (checkedDraws_app w));
    [apply afterLoop_checkedDraws|].
  intros _. checked w.
Qed.

(** X9: nothing is drawn that did not pass the gates.  Every call of
    [drawPuzzle] in the course of [onVideoClick] is for a frame that was
    scanned in this session, gave at least 17 digit predictions accepted by
    the validator, and for whose puzzle the solver returned exactly one
    solution: the initial values drawn are those of that puzzle and the
    solution drawn is that solution. *)
Theorem drawn_solution_passed_the_gates w ticks s initialValues sol :
  In (EvDrawPuzzle initialValues sol) (events (onVideoClick w ticks s)) ->
  exists img dps puzzle,
    In (EvScanPuzzle img) (events (onVideoClick w ticks s))
    /\ scanPuzzle w img = Normal dps
    /\ 17 <= length dps
    /\ satisfiesAllConstraints w dps = Normal true
    /\ digitPredictionsToPuzzle w dps = Normal puzzle
    /\ getInitialValues w puzzle = Normal initialValues
    /\ solve w puzzle 1 = Normal [sol].
Proof.
  intros Hdrawn.
  apply (onVideoClick_checkedDraws w ticks s initialValues sol).
  revert Hdrawn. generalize (events (onVideoClick w ticks s)).
  intros evs. induction evs as [|ev evs IH]; [intros []|].
  intros [-> | Hlater]; [left; reflexivity|].
  destruct ev; cbn [drawn]; try right; now apply IH.
Qed.

(** ** How a session ends *)

Lemma processImage_result w t img s res :
  processResult w t img s = Some res ->
  displayMode (afterProcess w t img s) = Some DISPLAY_MODE_SOLUTION
  /\ exists initialValues,
      In (initialValues, solution res) (drawn (duringProcess w t img s)).
Proof.
  unfold_processImage. run; reduce; intros Hres; try discriminate Hres.
  all: injection Hres as <-.
  all: split; [reflexivity|].
  all: eexists; rewrite ?drawn_app, ?drawn_duringAwait; cbn [drawn app In].
  all: left; reflexivity.
Qed.

Lemma loopBody_result w t s :
  let run := loopBody w t None s in
  (forall r', completion run = Normal (Cont, r') -> r' = None)
  /\ (forall res,
        completion run = Normal (Brk, Some res) ->
        displayMode (final run) = Some DISPLAY_MODE_SOLUTION
        /\ exists initialValues,
            In (initialValues, solution res) (drawn (events run))).
Proof.
  intros run. subst run.
  destruct (capture t) as [[img|]|e] eqn:Hcapture; enter_loopBody Hcapture.
  - match goal with
    | |- context [processResult w t img ?s0] =>
        pose proof (processImage_result w t img s0) as Hsolved;
        destruct (processResult w t img s0) as [res0|]
    end; reduce; rewrite ?logPerformanceMetrics_run; reduce.
    + split; [intros r' Hcontinue; discriminate Hcontinue|].
      intros res Hbreak. injection Hbreak as <-.
      destruct (Hsolved res0 eq_refl) as (Hmode & initialValues & Hdrawn).
      split; [exact Hmode|].
      exists initialValues. rewrite !drawn_app, !in_app_iff. tauto.
    + split; [|intros res Hbreak; discriminate Hbreak].
      intros r' Hcontinue. injection Hcontinue as <-. reflexivity.
  - rewrite ?logPerformanceMetrics_run; reduce.
    split; intros ? Hrun; discriminate Hrun.
  - rewrite ?logPerformanceMetrics_run; reduce.
    split; [|intros res Hbreak; discriminate Hbreak].
    intros r' Hcontinue. injection Hcontinue as <-. reflexivity.
Qed.

Lemma afterLoop_completed w res s :
  looping s ->
  let run := afterLoop w (Some res) s in
  stopped (final run)
  /\ displayMode (final run) = displayMode s
  /\ drawn (events run) = []
  /\ exists d,
      posts (events run) = [d]
      /\ smOutcome d = "completed"
      /\ smImageDataURL d = Some (imageDataURL res)
      /\ smSolution d = Some (solution res).
Proof.
  intros [Hon Hshown] run. subst run.
  unfold afterLoop, saveScanMetrics, hideStats, stopped. unfold_monad.
  rewrite Hon.
  repeat (split_match; cbn -[slice_last Z.add Z.sub String.append]);
    (split; [split; reflexivity|]);
    (split; [reflexivity|]);
    (split; [reflexivity|]);
    eexists; (split; [reflexivity|]); repeat split.
Qed.

Lemma not_clicked (evs : list Event') :
  existsb isCancelClick evs = false -> ~ In EvCancelClick evs.
Proof.
  intros Hquiet Hclick. apply In_cancelClick in Hclick. congruence.
Qed.

(** A session in which nobody clicks cancel posts nothing and goes on
    looping, or ends completed. *)
Lemma quiet_session w ticks :
  forall s,
    looping s ->
    let run := scanAndFinish w ticks None s in
    existsb isCancelClick (events run) = false ->
    (posts (events run) = [] /\ looping (final run))
    \/ completedOutcome (final run) (events run).
Proof.
  induction ticks as [|t ticks IH]; intros s Hlooping run Hquiet; subst run.
  - left. unfold scanAndFinish. cbn [scanLoop]. unfold_monad.
    rewrite (proj1 Hlooping). cbn. split; [reflexivity | exact Hlooping].
  - destruct (loopBody_normal w t None s) as (ctl & r' & Hbody).
    pose proof (loopBody_fromLooping w t None s Hlooping) as Hrun.
    destruct (loopBody_result w t s) as [Hnone Hsome]. cbv zeta in Hnone, Hsome.
    destruct ctl.
    + pose proof (scanAndFinish_break w t ticks None r' s (proj1 Hlooping) Hbody)
        as Hbreak.
      cbv zeta in Hbreak. destruct Hbreak as (_ & Hfinal & Hevents).
      rewrite Hevents in Hquiet. rewrite Hfinal, Hevents.
      rewrite existsb_app in Hquiet. apply orb_false_iff in Hquiet as [Hquiet _].
      destruct Hrun as [(Hlooping1 & _ & Hposts) | [Hclicked _]];
        [|congruence].
      destruct r' as [res|].
      * right. destruct (Hsome res Hbody) as (Hmode & initialValues & Hdrawn).
        destruct (afterLoop_completed w res _ Hlooping1)
          as (Hstopped & Hmode' & Hdrawn' & d & Hposted & Hd & Hurl & Hsol).
        split; [exact Hstopped|]. split; [congruence|].
        exists d, (imageDataURL res), (solution res), initialValues.
        rewrite posts_app, Hposts, Hposted, drawn_app, Hdrawn', app_nil_r.
        repeat split; assumption.
      * left. rewrite afterLoop_without_result. cbn [final events fst snd].
        rewrite posts_app, Hposts. split; [reflexivity | exact Hlooping1].
    + pose proof (scanAndFinish_continue w t ticks None r' s (proj1 Hlooping)
                    Hbody) as Hcontinue.
      cbv zeta in Hcontinue. destruct Hcontinue as (_ & Hfinal & Hevents).
      rewrite (Hnone r' Hbody) in *. clear Hnone Hsome.
      rewrite Hevents in Hquiet. rewrite Hfinal, Hevents.
      rewrite !existsb_app in Hquiet.
      apply orb_false_iff in Hquiet as [Hquiet Hquiet3].
      apply orb_false_iff in Hquiet as [Hquiet1 Hquiet2].
      destruct Hrun as [(Hlooping1 & _ & Hposts1) | [Hclicked _]];
        [|congruence].
      set (s1 := final (loopBody w t None s)) in *.
      destruct (proj2 (nextFrame_cancelProtocol w t s1) Hlooping1)
        as [(Hlooping2 & _ & Hposts2) | [Hclicked _]]; [|congruence].
      destruct (IH _ Hlooping2 Hquiet3)
        as [[Hposts3 Hlooping3]
           | (Hstopped & Hmode & d & url & sol & initialValues
              & Hposted & Hd & Hurl & Hsol & Hdrawn)].
      * left. rewrite !posts_app, Hposts1, Hposts2, Hposts3.
        split; [reflexivity | exact Hlooping3].
      * right. split; [exact Hstopped|]. split; [exact Hmode|].
        exists d, url, sol, initialValues.
        rewrite !posts_app, Hposts1, Hposts2, Hposted.
        repeat split; try assumption.
        rewrite drawn_app. apply in_or_app. now right.
Qed.

(** X10: a session posts at most one record, as long as the cancel
    handler is the only other task that runs while [onVideoClick] is
    suspended and [tf.nextFrame()] resolves.  From a call of
    [onVideoClick] with the webcam off and the cancel button hidden,
    either nothing is posted; or cancel was clicked, the one record posted
    says [cancelled] and the session is stopped; or nobody clicked cancel,
    the one record posted says [completed] and carries the snapshot and a
    solution that was drawn, the session is stopped and the solution is on
    display.  The cancel button being hidden, no click on it can arrive
    while the webcam is being started. *)
Theorem one_record_per_session w ticks s :
  webcamStarted s = false ->
  cancelButton s = false ->
  let run :=
    Concurrent.onVideoClick w (map (Concurrent.cancelOnly w) ticks) s in
  posts (events run) = []
  \/ (In EvCancelClick (events run)
      /\ stopped (final run)
      /\ exists d, posts (events run) = [d] /\ smOutcome d = "cancelled")
  \/ (~ In EvCancelClick (events run)
      /\ completedOutcome (final run) (events run)).
Proof.
  intros Hoff _ run. subst run. rewrite onVideoClick_cancelOnly.
  destruct (startWebcamResult w) as [[]|e] eqn:Hstart.
  - pose proof (onVideoClick_hands_over w ticks s Hoff Hstart) as Hrest.
    cbv zeta in Hrest. destruct Hrest as (_ & Hfinal & Hevents).
    rewrite Hfinal, Hevents.
    set (s0 := final (onVideoClick w [] s)) in *.
    assert (Hlooping : looping s0).
    { subst s0. rewrite (started_state w s Hoff Hstart).
      destruct (fpsOn w); split; reflexivity. }
    destruct (existsb isCancelClick (events (scanAndFinish w ticks None s0)))
      eqn:Hclick.
    + right. left.
      destruct (cancelled_session w ticks None s0 Hlooping Hclick)
        as (_ & Hstopped & Hposted & _).
      split; [|split; [exact Hstopped | exact Hposted]].
      apply in_or_app. right.
      apply existsb_exists in Hclick. destruct Hclick as (ev & Hev & Hclick).
      destruct ev; try discriminate Hclick. exact Hev.
    + destruct (quiet_session w ticks s0 Hlooping Hclick)
        as [[Hposts _] | Hcompleted].
      * left. exact Hposts.
      * right. right. split.
        -- apply not_clicked. cbn. exact Hclick.
        -- exact Hcompleted.
  - left. rewrite (onVideoClick_start_failure w ticks s e Hoff Hstart).
    reflexivity.
Qed.

End Properties.

(** * Properties of the start-up *)

Section StartupProperties.

Import Startup.

Lemma waitForOpenCVToFinishRunning_returns (ready : list bool) :
  snd (waitForOpenCVToFinishRunning ready) = Returned <-> In true ready.
Proof.
  induction ready as [|[|] later IH]; cbn.
  - split; [discriminate | intros []].
  - split; [intros _; now left | reflexivity].
  - destruct (waitForOpenCVToFinishRunning later) as [evs progress].
    cbn in *. rewrite IH. split; [now right | intros [Hnow|Hlater]];
      [discriminate Hnow | exact Hlater].
Qed.

Lemma waitForOpenCVToFinishRunning_shows_nothing (ready : list bool) :
  ~ In EvShowMainContent (fst (waitForOpenCVToFinishRunning ready)).
Proof.
  induction ready as [|[|] later IH]; cbn.
  - intros [].
  - intros [Hshown|[]]. discriminate Hshown.
  - destruct (waitForOpenCVToFinishRunning later) as [evs progress].
    cbn in *. intros [Hshown|[Hshown|Hshown]];
      [discriminate Hshown | discriminate Hshown | exact (IH Hshown)].
Qed.

(** X11: [waitForOpenCVToFinishRunning] polls until OpenCV is ready: after
    [n] turns that find it not ready, each logged and followed by a
    timeout of 2 ms, the first turn that finds it ready logs [done] and
    returns, whatever would come later; while no turn finds it ready the
    function keeps polling. *)
Theorem polling_stops_at_first_ready (n : nat) (later : list bool) :
  waitForOpenCVToFinishRunning (repeat false n ++ true :: later)
  = (concat (repeat waitingTurn n)
       ++ [EvLogInfo (Text "[waitForOpenCVToFinishRunning] done")],
     Returned)
  /\ waitForOpenCVToFinishRunning (repeat false n)
     = (concat (repeat waitingTurn n), Polling).
Proof.
  induction n as [|n [IHready IHnever]]; [split; reflexivity|].
  cbn [repeat app concat waitForOpenCVToFinishRunning].
  rewrite IHready, IHnever. split; reflexivity.
Qed.

(** X12: [onOpenCVLoaded] shows the main content exactly when the models
    were loaded and a turn of the polling loop found OpenCV ready, and it
    returns exactly then.  An error thrown by [loadModels] is not caught:
    it leaves [onOpenCVLoaded] after the one call, with the splash content
    still shown. *)
Theorem main_content_waits_for_models_and_opencv
    (loadModels : Completion unit) (ready : list bool) :
  let run := onOpenCVLoaded loadModels ready in
  (In EvShowMainContent (fst run) <-> loadModels = Normal tt /\ In true ready)
  /\ (snd run = Returned <-> In EvShowMainContent (fst run))
  /\ (forall e, loadModels = Thrown e ->
                run = ([EvLoadModels], Threw e)).
Proof.
  intros run. subst run. unfold onOpenCVLoaded.
  destruct loadModels as [[]|e].
  - pose proof (waitForOpenCVToFinishRunning_returns ready) as Hreturns.
    pose proof (waitForOpenCVToFinishRunning_shows_nothing ready) as Hnothing.
    destruct (waitForOpenCVToFinishRunning ready) as [evs progress].
    cbn [fst snd] in *.
    assert (Hshown :
              In EvShowMainContent
                (EvLoadModels :: EvLogInfo TfMemory :: evs
                   ++ [EvHideSplashContent; EvShowMainContent;
                       EvSetDisplayMode DISPLAY_MODE_INSTRUCTIONS])).
    { right. right. apply in_or_app. right. right. left. reflexivity. }
    assert (Hhidden :
              ~ In EvShowMainContent (EvLoadModels :: EvLogInfo TfMemory :: evs)).
    { intros [Hhead|[Hhead|Htail]];
        [discriminate Hhead | discriminate Hhead | exact (Hnothing Htail)]. }
    destruct progress; cbn [fst snd].
    + split; [|split; [|intros e He; discriminate He]].
      * split; [intros _; split; [reflexivity | now apply Hreturns]|].
        intros _. exact Hshown.
      * split; [intros _; exact Hshown | reflexivity].
    + split; [|split; [|intros e' He; discriminate He]].
      * split; [intros Hin; destruct (Hhidden Hin)|].
        intros [_ Hready]. apply Hreturns in Hready. discriminate Hready.
      * split; [discriminate | intros Hin; destruct (Hhidden Hin)].
    + split; [|split; [|intros e He; discriminate He]].
      * split; [intros Hin; destruct (Hhidden Hin)|].
        intros [_ Hready]. apply Hreturns in Hready. discriminate Hready.
      * split; [discriminate | intros Hin; destruct (Hhidden Hin)].
  - cbn [fst snd]. split; [|split].
    + split; [intros [Hhead|[]]; discriminate Hhead|].
      intros [Hloaded _]. discriminate Hloaded.
    + split; [discriminate|]. intros [Hhead|[]]. discriminate Hhead.
    + intros e' He. injection He as <-. reflexivity.
Qed.

End StartupProperties.

(** * The theorems at work in the concrete world *)

Section Instances.

Import Demo.

Local Open Scope nat_scope.

(** Frame 1 carries 16 digits: the gate of C2 closes. *)
Lemma minimum_clue_gate_witness :
  length (cluesOf referenceGrid 16) < 17
  /\ existsb isSolve (events (loopBody world (frame 1) None inLoop)) = false
  /\ completion (loopBody world (frame 1) None inLoop) = Normal (Cont, None).
Proof.
  assert (Hfew : length (cluesOf referenceGrid 16) < 17) by (vm_compute; lia).
  pose proof (minimum_clue_gate world (frame 1) None inLoop 1
                (cluesOf referenceGrid 16)
                eq_refl eq_refl eq_refl Hfew) as Hgate.
  cbv zeta in Hgate. destruct Hgate as (Hcont & Hsolver & _).
  repeat split; assumption.
Defined.

(** Frame 3 carries 18 digits, two of which repeat a digit in row 0. *)
Lemma constraint_gate_witness :
  satisfiesAllConstraints
    (mkPrediction 1 (nth 0 referenceGrid 0) 60 :: cluesOf referenceGrid 17)
  = false
  /\ existsb isSolve (events (loopBody world (frame 3) None inLoop)) = false
  /\ completion (loopBody world (frame 3) None inLoop) = Normal (Cont, None).
Proof.
  pose proof (constraint_gate world (frame 3) None inLoop 3
                (mkPrediction 1 (nth 0 referenceGrid 0) 60
                   :: cluesOf referenceGrid 17)
                eq_refl eq_refl eq_refl eq_refl) as Hgate.
  cbv zeta in Hgate. destruct Hgate as (Hcont & Hsolver & _).
  split; [reflexivity|]. split; assumption.
Defined.

(** Frame 5 carries 20 consistent digits for which the solver of this
    world finds nothing. *)
Lemma uniqueness_gate_witness :
  length (solve (digitPredictionsToPuzzle (cluesOf shiftedGrid 20)) 1) <> 1
  /\ existsb isDrawPuzzle (events (loopBody world (frame 5) None inLoop)) = false
  /\ completion (loopBody world (frame 5) None inLoop) = Normal (Cont, None).
Proof.
  assert (Hcount :
            length (solve (digitPredictionsToPuzzle (cluesOf shiftedGrid 20)) 1)
            <> 1) by (vm_compute; discriminate).
  pose proof (uniqueness_gate world (frame 5) None inLoop 5
                (cluesOf shiftedGrid 20)
                (digitPredictionsToPuzzle (cluesOf shiftedGrid 20))
                (solve (digitPredictionsToPuzzle (cluesOf shiftedGrid 20)) 1)
                eq_refl eq_refl eq_refl eq_refl eq_refl Hcount) as Hgate.
  cbv zeta in Hgate. destruct Hgate as (Hcont & Hdraw & _).
  repeat split; assumption.
Defined.



(** Frame 0 shows no puzzle. *)
Lemma scan_exception_swallowed_witness :
  existsb isShowErrorPanel (events (loopBody world (frame 0) None inLoop)) = false
  /\ In (EvLog LevelError (Text "[processImage] no puzzle found"))
        (events (loopBody world (frame 0) None inLoop)).
Proof.
  pose proof (scan_exception_swallowed world (frame 0) None inLoop inLoop 0
                noPuzzle eq_refl eq_refl eq_refl eq_refl) as Hswallowed.
  cbv zeta in Hswallowed. destruct Hswallowed as (_ & Hpanel & _ & Hlogged & _).
  split; assumption.
Defined.


(** Frame 2 carries 30 clues of the reference grid. *)
Lemma unique_solution_completes_witness :
  length (cluesOf referenceGrid 30) = 30
  /\ displayMode (final (scanAndFinish world [frame 2] None inLoop))
     = Some DISPLAY_MODE_SOLUTION
  /\ map (fun d => smOutcome d)
         (posts (events (scanAndFinish world [frame 2] None inLoop)))
     = ["completed"%string].
Proof.
  assert (Henough : 17 <= length (cluesOf referenceGrid 30))
    by (vm_compute; lia).
  pose proof (unique_solution_completes world (frame 2) [] None inLoop 2
                (cluesOf referenceGrid 30)
                (digitPredictionsToPuzzle (cluesOf referenceGrid 30))
                (getInitialValues
                   (digitPredictionsToPuzzle (cluesOf referenceGrid 30)))
                referenceGrid "data:image/png;base64,iVBORw0KGgo="%string
                eq_refl eq_refl eq_refl Henough eq_refl eq_refl eq_refl
                eq_refl eq_refl eq_refl
                ltac:(discriminate) ltac:(discriminate)) as Hdone.
  cbv zeta in Hdone.
  destruct Hdone as (_ & Hmode & _ & (d & Hposts & Houtcome & _) & _).
  split; [reflexivity|]. split; [exact Hmode|].
  rewrite Hposts. cbn [map]. rewrite Houtcome. reflexivity.
Defined.

(** The user clicks cancel while the loop waits for the frame after
    frame 1, and does nothing else. *)
Lemma cancel_ends_session_witness :
  In EvCancelClick
     (events (Concurrent.scanAndFinish world
                (map (Concurrent.cancelOnly world)
                     [frameCancelled 1 AwaitNextFrame])
                None inLoop))
  /\ displayMode
       (final (Concurrent.scanAndFinish world
                 (map (Concurrent.cancelOnly world)
                      [frameCancelled 1 AwaitNextFrame])
                 None inLoop))
     = Some DISPLAY_MODE_INSTRUCTIONS.
Proof.
  assert (Hclick :
            In EvCancelClick
               (events (Concurrent.scanAndFinish world
                          (map (Concurrent.cancelOnly world)
                               [frameCancelled 1 AwaitNextFrame])
                          None inLoop))).
  { apply In_cancelClick. vm_compute. reflexivity. }
  pose proof (cancel_ends_session world [frameCancelled 1 AwaitNextFrame] None
                inLoop eq_refl eq_refl Hclick) as Hcancelled.
  destruct Hcancelled as (_ & _ & _ & _ & _ & Hmode).
  split; [exact Hclick|]. apply Hmode. vm_compute. reflexivity.
Defined.

(** ** Where the code departs from the specification *)


(** C5 fails as stated: on frame 0 the recognizer throws a scan exception,
    and [processImage] logs it at level error. *)
Lemma scan_exception_is_logged_as_error :
  let run := loopBody world (frame 0) None inLoop in
  scanPuzzle 0 = Thrown noPuzzle
  /\ isScanException noPuzzle = true
  /\ errorLog (events run) = [Text "[processImage] no puzzle found"]
  /\ existsb isShowErrorPanel (events run) = false.
Proof. vm_compute. repeat split. Qed.

(** C6 fails as stated: after 101 frames the session's mark log [markss]
    holds 101 mark sets. *)
Lemma mark_log_grows_past_100 :
  let run := onVideoClick world (repeat (frame 1) 101) idle in
  completion run = Normal StillLooping
  /\ length (markss (final run)) = 101
  /\ frameCount (final run) = 101.
Proof. vm_compute. repeat split. Qed.

(** C8 fails as stated: the user clicks cancel while frame 2 is being
    scanned; the scan comes back, the puzzle is solved and drawn, and the
    display is left on the solution, not on the instructions. *)
Lemma cancel_during_scan_leaves_solution :
  let run := onVideoClick world [frameCancelled 2 AwaitScanPuzzle] idle in
  In EvCancelClick (events run)
  /\ map (fun d => smOutcome d) (posts (events run)) = ["cancelled"%string]
  /\ cancelButton (final run) = false
  /\ displayMode (final run) = Some DISPLAY_MODE_SOLUTION
  /\ displayMode (final run) <> Some DISPLAY_MODE_INSTRUCTIONS.
Proof.
  vm_compute. repeat split; try discriminate.
  do 6 right. left. reflexivity.
Qed.

(** C9 fails as stated: frame 2 carries 30 consistent clues and the solver
    returns exactly one solution, which is drawn; but the user had clicked
    cancel while the frame was being scanned, so the webcam is stopped when
    the loop is left and no record with outcome [completed] is posted. *)
Lemma solved_after_cancel_is_not_completed :
  let run := scanAndFinish world [frameCancelled 2 AwaitScanPuzzle] None inLoop in
  length (cluesOf referenceGrid 30) = 30
  /\ satisfiesAllConstraints (cluesOf referenceGrid 30) = true
  /\ length (solve (digitPredictionsToPuzzle (cluesOf referenceGrid 30)) 1) = 1
  /\ existsb isDrawPuzzle (events run) = true
  /\ existsb (fun d => String.eqb (smOutcome d) "completed")
             (posts (events run)) = false
  /\ completion run = Normal Finished.
Proof. vm_compute. repeat split. Qed.


(** The webcam cannot be started. *)
Lemma start_failure_is_surfaced_witness :
  webcamStarted idle = false
  /\ completion (onVideoClick Faults.withoutCamera [frame 2] idle)
     = Normal StartFailed
  /\ errorPanel (final (onVideoClick Faults.withoutCamera [frame 2] idle))
     = Some (PanelError Faults.noCamera).
Proof.
  pose proof (start_failure_is_surfaced Faults.withoutCamera [frame 2] idle
                Faults.noCamera eq_refl eq_refl) as Hfailed.
  cbv zeta in Hfailed. destruct Hfailed as (Hstatus & _ & Hpanel & _).
  split; [reflexivity|]. split; assumption.
Defined.

(** The webcam starts and frame 2 is waiting. *)
Lemma start_success_hands_over_witness :
  webcamStarted idle = false
  /\ looping (final (onVideoClick world [] idle))
  /\ completion (onVideoClick world [frame 2] idle)
     = completion
         (scanAndFinish world [frame 2] None (final (onVideoClick world [] idle))).
Proof.
  pose proof (start_success_hands_over world [frame 2] idle eq_refl eq_refl)
    as Hstarted.
  cbv zeta in Hstarted.
  destruct Hstarted as (Hlooping & _ & _ & _ & _ & _ & Hcompletion & _).
  split; [reflexivity|]. split; assumption.
Defined.

(** [captureWebcam] returns nothing while frame 2 is waiting behind. *)
Lemma no_frame_ends_silently_witness :
  capture Faults.noFrame = Normal None
  /\ completion (scanAndFinish world [Faults.noFrame; frame 2] None inLoop)
     = Normal Finished
  /\ posts (events (scanAndFinish world [Faults.noFrame; frame 2] None inLoop))
     = []
  /\ webcamStarted
       (final (scanAndFinish world [Faults.noFrame; frame 2] None inLoop))
     = true.
Proof.
  assert (Hquiet : cancelAt Faults.noFrame <> Some AwaitCaptureWebcam)
    by discriminate.
  pose proof (no_frame_ends_silently world Faults.noFrame [frame 2] inLoop
                eq_refl eq_refl Hquiet) as Hleft.
  cbv zeta in Hleft.
  destruct Hleft as (Hstatus & Hposts & _ & _ & Hwebcam & _).
  split; [reflexivity|]. repeat split; assumption.
Defined.

(** A session of two frames, the second of which is solved. *)
Lemma frames_counted_and_kept_witness :
  webcamStarted idle = false
  /\ frameCount (final (onVideoClick world [frame 1; frame 2] idle))
     = length (markss (final (onVideoClick world [frame 1; frame 2] idle)))
  /\ Forall postConsistent (events (onVideoClick world [frame 1; frame 2] idle)).
Proof.
  split; [reflexivity|].
  exact (frames_counted_and_kept world [frame 1; frame 2] idle eq_refl).
Defined.

(** Frame 2 is solved and drawn. *)
Lemma drawn_solution_passed_the_gates_witness :
  In (EvDrawPuzzle
        (getInitialValues (digitPredictionsToPuzzle (cluesOf referenceGrid 30)))
        referenceGrid)
     (events (onVideoClick world [frame 2] idle))
  /\ exists img, In (EvScanPuzzle img) (events (onVideoClick world [frame 2] idle)).
Proof.
  assert (Hdrawn :
            In (EvDrawPuzzle
                  (getInitialValues
                     (digitPredictionsToPuzzle (cluesOf referenceGrid 30)))
                  referenceGrid)
               (events (onVideoClick world [frame 2] idle))).
  { vm_compute. repeat first [left; reflexivity | right]. }
  split; [exact Hdrawn|].
  destruct (drawn_solution_passed_the_gates world [frame 2] idle _ _ Hdrawn)
    as (img & _ & _ & Hscanned & _).
  exists img. exact Hscanned.
Defined.

(** A session that solves frame 2, the user doing nothing. *)
Lemma one_record_per_session_witness :
  webcamStarted idle = false
  /\ cancelButton idle = false
  /\ map (fun d => smOutcome d)
         (posts (events (Concurrent.onVideoClick world
                           (map (Concurrent.cancelOnly world) [frame 2])
                           idle)))
     = ["completed"%string].
Proof.
  split; [reflexivity|]. split; [reflexivity|].
  destruct (one_record_per_session world [frame 2] idle eq_refl eq_refl)
    as [Hnone | [(Hclick & _) | (_ & _ & _ & d & url & sol & initialValues
                                  & Hposted & Hcompleted & _)]].
  - vm_compute in Hnone. discriminate Hnone.
  - exfalso. apply In_cancelClick in Hclick. vm_compute in Hclick.
    discriminate Hclick.
  - rewrite Hposted. cbn [map]. rewrite Hcompleted. reflexivity.
Defined.

(** Frame 1 gives no result, and [tf.nextFrame()] is rejected after it:
    the call is rejected, with the webcam started and the cancel button
    shown. *)
Lemma only_nextFrame_errors_escape_witness :
  Concurrent.nextFrameResult (Races.frameLost 1) = Thrown Races.contextLost
  /\ completion (Concurrent.scanAndFinish world
                   [Races.frameLost 1; Races.quiet 2] None inLoop)
     = Thrown Races.contextLost
  /\ webcamStarted (final (Concurrent.scanAndFinish world
                             [Races.frameLost 1; Races.quiet 2] None inLoop))
     = true.
Proof.
  assert (Hround :
            completion (Concurrent.loopBody world (Races.frameLost 1) None
                          inLoop)
            = Normal (Cont, None)) by (vm_compute; reflexivity).
  split; [reflexivity|]. split.
  - exact (proj2 (only_nextFrame_errors_escape world [] idle)
             (Races.frameLost 1) [Races.quiet 2] None None inLoop
             Races.contextLost eq_refl Hround eq_refl).
  - vm_compute. reflexivity.
Defined.

(** ** A click on the video after a cancel *)


(** The same two clicks while frame 2 is scanned: the first call, resumed,
    solves the frame, finds the webcam started by the second call and
    posts [completed] after the cancel handler posted [cancelled]. *)
Lemma restart_after_cancel_posts_twice :
  let first := Concurrent.onVideoClick world [Races.restarted 2] idle in
  completion first = Normal Finished
  /\ map (fun d => (smOutcome d, smFrameCount d)) (posts (events first))
     = [("cancelled"%string, 0); ("completed"%string, 1)]
  /\ displayMode (final first) = Some DISPLAY_MODE_SOLUTION
  /\ webcamStarted (final first) = false.
Proof. vm_compute. repeat split. Qed.

End Instances.
